(** * The activities signup page: view synchronisation of [src/static/app.js]

    The script fetches the activities of a school from the backend, renders
    one card per activity, lets a visitor sign up through a form and lets an
    organiser remove a participant from a roster.  This development embeds
    the script as state-passing functions over an explicit page state and
    proves the properties of the view that its description relies on.

    Modelling conventions.
    - Every [async] handler is cut at its [await]: a first function covers the
      statements up to the network call, a second one, the continuation, takes
      the settled outcome of the call and runs on whatever the page has become
      in the meantime.  [await fetch(..)] and [await response.json()] settle
      together, nothing of the script observes the difference.
    - A JavaScript exception is the [Thrown] completion of the [js] monad; the
      page mutations made before the throw are kept, as in the language.
    - The values received from the backend are typed as the HTTP contract
      describes them (strings, integer capacities, arrays of e-mail strings);
      a missing [participants] property and a [null] body are kept because the
      script throws on them.
    - [innerHTML] is modelled by the element tree it builds for texts that
      are free of markup ([markup_free] below); the statements about the
      content of a card carry that condition, and [data_activity_attribute]
      shows what the parser reads when it fails.
    - Numbers are integers.  A capacity is the number [JSON.parse] delivers;
      the subtraction is the one of the language ([round_double]); a number
      below 10^21 prints in plain decimal notation, and the statements about
      displayed capacities are on safe integers.
    - A string is read as the bytes of its UTF-8 encoding, generalised so
      that a lone surrogate is the three bytes ED A0..BF xx. *)

From Stdlib Require Import ZArith String Ascii Decimal DecimalString DecimalPos DecimalZ Lia.
From stdpp Require Import base option list strings.

Local Open Scope Z_scope.

(* ===================================================================== *)
(** * Backend values *)
(* ===================================================================== *)

(** One value of the mapping returned by [GET /activities].  [participants]
    is [None] when the property is absent ([undefined]). *)
Record details := {
  description : string;
  schedule : string;
  max_participants : Z;
  participants : option (list string)
}.

(** The body of a signup or unregister response: [message] and [detail] are
    [None] when the property is absent. *)
Record result := {
  message : option string;
  detail : option string
}.

(** What [response.json()] does with a body: it rejects when the body is not
    JSON and resolves to the parsed value otherwise, [null] included. *)
Inductive body (A : Type) :=
  | NotJson
  | JsonNull
  | Json (a : A).
Arguments NotJson {A}.
Arguments JsonNull {A}.
Arguments Json {A} a.

(** A response: [ok] is the flag the script reads, true for a 2xx status. *)
Record response (A : Type) := {
  ok : bool;
  payload : body A
}.
Arguments ok {A} r.
Arguments payload {A} r.

(** A settled [fetch]: the promise rejects (transport failure) or resolves to
    a response, whatever its status. *)
Inductive fetch_result (A : Type) :=
  | Rejected
  | Resolved (r : response A).
Arguments Rejected {A}.
Arguments Resolved {A} r.

(** The three requests of the script, by the two values that are
    percent-encoded into the URL. *)
Inductive request :=
  | GET_activities
  | POST_signup (activity email : string)
  | DELETE_unregister (activity email : string).

(* ===================================================================== *)
(** * The page *)
(* ===================================================================== *)

(** A participant row [<li><span>p</span><button class="delete-btn" ..>].
    [li_index] is the identity of the element inside its card: its position
    in the roster when the card was rendered. *)
Record li := {
  li_index : nat;
  span : string;
  data_activity : string;
  data_email : string;
  aria_label : string
}.

(** The element tree built by the [innerHTML] template of a card; each field
    is the text content of the element it is named after. *)
Record activity_card := {
  h4 : string;
  p_description : string;
  p_schedule : string;
  p_spots : string;
  h5 : string;
  ul : list li
}.

(** A child of [#activities-list]: a card, by the identity of its [div], or a
    paragraph. *)
Inductive node :=
  | Card (div : nat)
  | Paragraph (text : string).

(** An [<option>] of the [#activity] select. *)
Record option_element := {
  option_value : string;
  option_textContent : string
}.

(** A click listener on a delete button: the card and the row of the button,
    and the two [data-] attributes it reads back.  The attributes are written
    once by the template and never changed, so they are carried here. *)
Record listener := {
  l_card : nat;
  l_row : nat;
  l_activity : string;
  l_email : string
}.

(** The only callback ever handed to [setTimeout]:
    [() => messageDiv.classList.add("hidden")]. *)
Inductive callback := hide_message.

Record world := {
  (** every [div] made by [createElement], attached or not, by identity;
      [None] is a [div] that has no content yet *)
  elements : list (option activity_card);
  (** children of [#activities-list] *)
  activitiesList : list node;
  (** options of [#activity] *)
  activitySelect : list option_element;
  clickListeners : list listener;
  (** values of the two fields of [#signup-form] *)
  email_value : string;
  activity_value : string;
  (** [#message] *)
  messageDiv_textContent : string;
  messageDiv_classList : list string;
  (** what the script did to the outside *)
  alerts : list string;
  console : list string;
  requests : list request;
  timers : list (Z * callback);
  (** the clock, in milliseconds *)
  now : Z
}.

Definition set_elements (f : list (option activity_card) → list (option activity_card)) (w : world) : world :=
  {| elements := f (elements w); activitiesList := activitiesList w;
     activitySelect := activitySelect w; clickListeners := clickListeners w;
     email_value := email_value w; activity_value := activity_value w;
     messageDiv_textContent := messageDiv_textContent w;
     messageDiv_classList := messageDiv_classList w;
     alerts := alerts w; console := console w; requests := requests w;
     timers := timers w; now := now w |}.

Definition set_activitiesList (f : list node → list node) (w : world) : world :=
  {| elements := elements w; activitiesList := f (activitiesList w);
     activitySelect := activitySelect w; clickListeners := clickListeners w;
     email_value := email_value w; activity_value := activity_value w;
     messageDiv_textContent := messageDiv_textContent w;
     messageDiv_classList := messageDiv_classList w;
     alerts := alerts w; console := console w; requests := requests w;
     timers := timers w; now := now w |}.

Definition set_activitySelect (f : list option_element → list option_element) (w : world) : world :=
  {| elements := elements w; activitiesList := activitiesList w;
     activitySelect := f (activitySelect w); clickListeners := clickListeners w;
     email_value := email_value w; activity_value := activity_value w;
     messageDiv_textContent := messageDiv_textContent w;
     messageDiv_classList := messageDiv_classList w;
     alerts := alerts w; console := console w; requests := requests w;
     timers := timers w; now := now w |}.

Definition set_clickListeners (f : list listener → list listener) (w : world) : world :=
  {| elements := elements w; activitiesList := activitiesList w;
     activitySelect := activitySelect w; clickListeners := f (clickListeners w);
     email_value := email_value w; activity_value := activity_value w;
     messageDiv_textContent := messageDiv_textContent w;
     messageDiv_classList := messageDiv_classList w;
     alerts := alerts w; console := console w; requests := requests w;
     timers := timers w; now := now w |}.

Definition set_form (email activity : string) (w : world) : world :=
  {| elements := elements w; activitiesList := activitiesList w;
     activitySelect := activitySelect w; clickListeners := clickListeners w;
     email_value := email; activity_value := activity;
     messageDiv_textContent := messageDiv_textContent w;
     messageDiv_classList := messageDiv_classList w;
     alerts := alerts w; console := console w; requests := requests w;
     timers := timers w; now := now w |}.

Definition set_messageDiv_textContent (s : string) (w : world) : world :=
  {| elements := elements w; activitiesList := activitiesList w;
     activitySelect := activitySelect w; clickListeners := clickListeners w;
     email_value := email_value w; activity_value := activity_value w;
     messageDiv_textContent := s;
     messageDiv_classList := messageDiv_classList w;
     alerts := alerts w; console := console w; requests := requests w;
     timers := timers w; now := now w |}.

Definition set_messageDiv_classList (f : list string → list string) (w : world) : world :=
  {| elements := elements w; activitiesList := activitiesList w;
     activitySelect := activitySelect w; clickListeners := clickListeners w;
     email_value := email_value w; activity_value := activity_value w;
     messageDiv_textContent := messageDiv_textContent w;
     messageDiv_classList := f (messageDiv_classList w);
     alerts := alerts w; console := console w; requests := requests w;
     timers := timers w; now := now w |}.

Definition set_alerts (f : list string → list string) (w : world) : world :=
  {| elements := elements w; activitiesList := activitiesList w;
     activitySelect := activitySelect w; clickListeners := clickListeners w;
     email_value := email_value w; activity_value := activity_value w;
     messageDiv_textContent := messageDiv_textContent w;
     messageDiv_classList := messageDiv_classList w;
     alerts := f (alerts w); console := console w; requests := requests w;
     timers := timers w; now := now w |}.

Definition set_console (f : list string → list string) (w : world) : world :=
  {| elements := elements w; activitiesList := activitiesList w;
     activitySelect := activitySelect w; clickListeners := clickListeners w;
     email_value := email_value w; activity_value := activity_value w;
     messageDiv_textContent := messageDiv_textContent w;
     messageDiv_classList := messageDiv_classList w;
     alerts := alerts w; console := f (console w); requests := requests w;
     timers := timers w; now := now w |}.

Definition set_requests (f : list request → list request) (w : world) : world :=
  {| elements := elements w; activitiesList := activitiesList w;
     activitySelect := activitySelect w; clickListeners := clickListeners w;
     email_value := email_value w; activity_value := activity_value w;
     messageDiv_textContent := messageDiv_textContent w;
     messageDiv_classList := messageDiv_classList w;
     alerts := alerts w; console := console w; requests := f (requests w);
     timers := timers w; now := now w |}.

Definition set_timers (f : list (Z * callback) → list (Z * callback)) (w : world) : world :=
  {| elements := elements w; activitiesList := activitiesList w;
     activitySelect := activitySelect w; clickListeners := clickListeners w;
     email_value := email_value w; activity_value := activity_value w;
     messageDiv_textContent := messageDiv_textContent w;
     messageDiv_classList := messageDiv_classList w;
     alerts := alerts w; console := console w; requests := requests w;
     timers := f (timers w); now := now w |}.

Definition set_now (t : Z) (w : world) : world :=
  {| elements := elements w; activitiesList := activitiesList w;
     activitySelect := activitySelect w; clickListeners := clickListeners w;
     email_value := email_value w; activity_value := activity_value w;
     messageDiv_textContent := messageDiv_textContent w;
     messageDiv_classList := messageDiv_classList w;
     alerts := alerts w; console := console w; requests := requests w;
     timers := timers w; now := t |}.

(* ===================================================================== *)
(** * Statements that may throw *)
(* ===================================================================== *)

(** How a statement completes.  The thrown value itself is only ever handed
    to [console.error], it is not kept. *)
Inductive completion (A : Type) :=
  | Normal (a : A)
  | Thrown.
Arguments Normal {A} a.
Arguments Thrown {A}.

Definition js (A : Type) : Type := world → completion A * world.

#[export] Instance js_ret : MRet js := λ A a w, (Normal a, w).

#[export] Instance js_bind : MBind js := λ A B k m w,
  match m w with
  | (Normal a, w') => k a w'
  | (Thrown, w') => (Thrown, w')
  end.

Definition throw {A} : js A := λ w, (Thrown, w).

(** [try { block } catch (error) { handler }] *)
Definition try_catch (block handler : js unit) : js unit := λ w,
  match block w with
  | (Normal a, w') => (Normal a, w')
  | (Thrown, w') => handler w'
  end.

Definition get : js world := λ w, (Normal w, w).

Definition modify (f : world → world) : js unit := λ w, (Normal (), f w).

(** The page a statement leaves behind. *)
Definition exec {A} (m : js A) (w : world) : world := snd (m w).

(** [array.forEach(f)] *)
Fixpoint forEach {A} (l : list A) (f : A → js unit) : js unit :=
  match l with
  | [] => mret ()
  | x :: l' => f x;; forEach l' f
  end.

(* ===================================================================== *)
(** * Numbers and text *)
(* ===================================================================== *)

(** An integer inside a template literal: its decimal notation, with a
    leading minus sign when negative.  (The language prints an integer this
    way below 10^21; the counts of the headings are below 2^32.) *)
Definition Number_toString (n : Z) : string :=
  NilZero.string_of_int (Z.to_int n).

Definition is_digit (c : ascii) : bool :=
  match c with
  | "0" | "1" | "2" | "3" | "4" | "5" | "6" | "7" | "8" | "9" => true
  | _ => false
  end%char.

(** The digits a string starts with. *)
Fixpoint leading_digits (s : string) : string :=
  match s with
  | String c s' => if is_digit c then String c (leading_digits s') else EmptyString
  | EmptyString => EmptyString
  end.

(** [s.match(/\d+/)]: [None] is [null], otherwise element [0] of the match,
    the leftmost longest run of digits. *)
Fixpoint match_digits (s : string) : option string :=
  match s with
  | EmptyString => None
  | String c s' => if is_digit c then Some (leading_digits s) else match_digits s'
  end.

(** [parseInt(s)] for a string that starts with a digit or holds none: the
    value of the leading digits, [None] (NaN) when there is none.  The one
    call of the script passes a match of [\d+], so neither a sign, white
    space nor a radix prefix can occur. *)
Definition parseInt (s : string) : option Z :=
  Z.of_uint <$> NilZero.uint_of_string (leading_digits s).

(** [`${n - 1}`] for the result [n] of [parseInt]. *)
Definition minus_one_text (n : option Z) : string :=
  match n with
  | Some n => Number_toString (n - 1)
  | None => "NaN"
  end.

(** [a || b] on a property that holds a string when present: absent and
    empty are the falsy cases. *)
Definition or_else (a : option string) (b : string) : string :=
  match a with
  | Some (String c s) => String c s
  | _ => b
  end.

(** [element.textContent = v]: [undefined] comes out as the empty text. *)
Definition text_of (v : option string) : string := default EmptyString v.

(* ===================================================================== *)
(** * Page operations *)
(* ===================================================================== *)

(** [fetch(..)], the call itself: the request leaves. *)
Definition fetch (r : request) : js unit :=
  modify (set_requests (λ l, l ++ [r])).

(** [await fetch(..)], the settlement. *)
Definition await_fetch {A} (r : fetch_result A) : js (response A) :=
  match r with
  | Rejected => throw
  | Resolved res => mret res
  end.

(** [await response.json()]: [None] is [null]. *)
Definition response_json {A} (res : response A) : js (option A) :=
  match payload res with
  | NotJson => throw
  | JsonNull => mret None
  | Json a => mret (Some a)
  end.

(** [Object.entries(v)] and a property read [v.p]: both throw when [v] is
    [null] or [undefined]. *)
Definition not_null {A} (v : option A) : js A :=
  match v with
  | None => throw
  | Some a => mret a
  end.

Definition alert (s : string) : js unit :=
  modify (set_alerts (λ l, l ++ [s])).

Definition console_error (s : string) : js unit :=
  modify (set_console (λ l, l ++ [s])).

(** [document.createElement("div")]: the new element is the next one of
    [elements]. *)
Definition createElement : js nat :=
  w ← get;
  modify (set_elements (λ l, l ++ [None]));;
  mret (length (elements w)).

Definition set_innerHTML (div : nat) (c : activity_card) : js unit :=
  modify (set_elements (λ l, <[div := Some c]> l)).

Definition classList_remove (c : string) : js unit :=
  modify (set_messageDiv_classList (filter (λ x, x ≠ c))).

Definition classList_add (c : string) (w : world) : world :=
  set_messageDiv_classList (λ l, if decide (c ∈ l) then l else l ++ [c]) w.

Definition setTimeout (cb : callback) (delay : Z) : js unit :=
  w ← get;
  modify (set_timers (λ l, l ++ [(now w + delay, cb)])).

(** Modelled from the spec: the markup of the page is not among the sources;
    the description of the form says that a reset leaves its fields empty,
    that is, the e-mail input has no default value and the default option of
    the select has the empty value. *)
Definition signupForm_reset : js unit :=
  modify (set_form EmptyString EmptyString).

(* ===================================================================== *)
(** * Rendering one activity (lines 17 to 78) *)
(* ===================================================================== *)

(** The [<li>] the parser builds from the markup of line 24 for participant
    [p], the [i]-th of activity [name], when the two are free of markup
    ([markup_free]); [li_markup] is the markup itself. *)
Definition participant_li (name : string) (i : nat) (p : string) : li :=
  {| li_index := i; span := p; data_activity := name; data_email := p;
     aria_label := "Remove " +:+ p |}.

(** The double nearest to an integer, ties to the even significand: every
    integer below 2^53 in absolute value is a double; from there on the
    doubles are the multiples of [2 ^ (Z.log2 |n| - 52)].  (No overflow:
    the integers here are far below 2^1024.) *)
Definition round_double (n : Z) : Z :=
  let a := Z.abs n in
  if a <? 2 ^ 53 then n
  else
    let q := 2 ^ (Z.log2 a - 52) in
    let m := a / q in
    let r := a mod q in
    let m' := if 2 * r <? q then m
              else if q <? 2 * r then m + 1
              else if Z.even m then m else m + 1 in
    Z.sgn n * (m' * q).

(** [details.max_participants - details.participants.length] (line 21): the
    subtraction of two doubles, that is, the exact difference rounded. *)
Definition spotsLeft (max : Z) (roster : list string) : Z :=
  round_double (max - Z.of_nat (length roster)).

(** The tree the parser builds from the template of lines 27 to 36 when the
    texts are free of markup. *)
Definition card_template (name : string) (d : details) (roster : list string) : activity_card :=
  {| h4 := name;
     p_description := "Description: " +:+ description d;
     p_schedule := "Schedule: " +:+ schedule d;
     p_spots := "Spots Available: " +:+ Number_toString (spotsLeft (max_participants d) roster)
                +:+ "/" +:+ Number_toString (max_participants d);
     h5 := "Current Participants (" +:+ Number_toString (Z.of_nat (length roster)) +:+ ")";
     ul := imap (participant_li name) roster |}.

Definition delete_listener (div : nat) (r : li) : listener :=
  {| l_card := div; l_row := li_index r; l_activity := data_activity r;
     l_email := data_email r |}.

(** The body of the [forEach] callback.  Reading [.length] of an absent
    [participants] throws before anything is attached.  The class name of
    the [div] is a constant and is left out. *)
Definition render_activity (entry : string * details) : js unit :=
  let '(name, d) := entry in
  activityCard ← createElement;
  roster ← not_null (participants d);
  let card := card_template name d roster in
  set_innerHTML activityCard card;;
  modify (set_activitiesList (λ l, l ++ [Card activityCard]));;
  modify (set_clickListeners (λ l, l ++ (delete_listener activityCard <$> ul card)));;
  modify (set_activitySelect (λ l, l ++ [{| option_value := name; option_textContent := name |}])).

Definition failure_notice : string :=
  "Failed to load activities. Please try again later.".

(** [fetchActivities], up to its [await]. *)
Definition fetchActivities_call : js unit := fetch GET_activities.

(** The [try] block of [fetchActivities], from the settlement on.  The
    mapping is given as [Object.entries] lists it. *)
Definition fetchActivities_try (r : fetch_result (list (string * details))) : js unit :=
  response ← await_fetch r;
  activities ← response_json response;
  modify (set_activitiesList (λ _, []));;
  entries ← not_null activities;
  forEach entries render_activity.

Definition fetchActivities_catch : js unit :=
  modify (set_activitiesList (λ _, [Paragraph failure_notice]));;
  console_error "Error fetching activities:".

Definition fetchActivities (r : fetch_result (list (string * details))) : js unit :=
  try_catch (fetchActivities_try r) fetchActivities_catch.

(* ===================================================================== *)
(** * The delete button (lines 42 to 70) *)
(* ===================================================================== *)

(** A lone surrogate in a string: the byte ED followed by a byte from A0 on. *)
Fixpoint lone_surrogate (s : string) : bool :=
  match s with
  | String a s' =>
      match s' with
      | String b _ =>
          (N_of_ascii a =? 237)%N && (160 <=? N_of_ascii b)%N || lone_surrogate s'
      | EmptyString => false
      end
  | EmptyString => false
  end.

(** [encodeURIComponent(s)], as far as the control flow goes: it throws a
    [URIError] on a lone surrogate.  The text it returns is in [request_url]. *)
Definition encodeURIComponent_throws (s : string) : js unit :=
  if lone_surrogate s then throw else mret ().

(** The request of a click, once its URL is built. *)
Definition delete_click (l : listener) : js unit :=
  fetch (DELETE_unregister (l_activity l) (l_email l)).

(** [btn.parentElement.remove()]: the row leaves the list of its card; a row
    that has left already stays out. *)
Definition remove_row (row : nat) (c : activity_card) : activity_card :=
  {| h4 := h4 c; p_description := p_description c; p_schedule := p_schedule c;
     p_spots := p_spots c; h5 := h5 c;
     ul := filter (λ r, li_index r ≠ row) (ul c) |}.

Definition set_h5 (s : string) (c : activity_card) : activity_card :=
  {| h4 := h4 c; p_description := p_description c; p_schedule := p_schedule c;
     p_spots := p_spots c; h5 := s; ul := ul c |}.

(** [activityCard.querySelector(".participants h5").textContent]: reading the
    text of a heading that is not there throws. *)
Definition h5_textContent (div : nat) : js string :=
  w ← get;
  match elements w !! div with
  | Some (Some c) => mret (h5 c)
  | _ => throw
  end.

(** The click handler from the settlement on. *)
Definition delete_try (l : listener) (r : fetch_result result) : js unit :=
  response ← await_fetch r;
  if ok response then
    modify (set_elements (alter (fmap (remove_row (l_row l))) (l_card l)));;
    text ← h5_textContent (l_card l);
    digits ← not_null (match_digits text);
    let currentCount := parseInt digits in
    modify (set_elements (alter (fmap (set_h5
      ("Current Participants (" +:+ minus_one_text currentCount +:+ ")"))) (l_card l)))
  else
    result ← response_json response;
    result ← not_null result;
    alert (or_else (detail result) "Failed to unregister participant").

Definition delete_catch : js unit :=
  alert "Failed to unregister participant";;
  console_error "Error unregistering:".

Definition delete_resume (l : listener) (r : fetch_result result) : js unit :=
  try_catch (delete_try l r) delete_catch.

(** The click handler up to its [await] (lines 42 to 53): the URL is built
    inside the [try], activity first; when that throws, the [catch] block
    runs and no request leaves. *)
Definition click_listener (l : listener) : js unit :=
  try_catch
    (encodeURIComponent_throws (l_activity l);;
     encodeURIComponent_throws (l_email l);;
     delete_click l)
    delete_catch.

(* ===================================================================== *)
(** * The signup form (lines 86 to 123) *)
(* ===================================================================== *)

(** The request of a submit, once its URL is built: the two fields are read
    when the form is submitted. *)
Definition submit_call : js unit :=
  w ← get;
  let email := email_value w in
  let activity := activity_value w in
  fetch (POST_signup activity email).

(** The submit handler from the settlement on. *)
Definition submit_try (r : fetch_result result) : js unit :=
  response ← await_fetch r;
  result ← response_json response;
  (if ok response then
     result ← not_null result;
     modify (set_messageDiv_textContent (text_of (message result)));;
     modify (set_messageDiv_classList (λ _, ["success"]));;
     signupForm_reset
   else
     result ← not_null result;
     modify (set_messageDiv_textContent (or_else (detail result) "An error occurred"));;
     modify (set_messageDiv_classList (λ _, ["error"])));;
  classList_remove "hidden";;
  setTimeout hide_message 5000.

Definition submit_catch : js unit :=
  modify (set_messageDiv_textContent "Failed to sign up. Please try again.");;
  modify (set_messageDiv_classList (λ _, ["error"]));;
  classList_remove "hidden";;
  console_error "Error signing up:".

Definition submit_resume (r : fetch_result result) : js unit :=
  try_catch (submit_try r) submit_catch.

(** The submit handler up to its [await] (lines 86 to 98): the URL is built
    inside the [try], activity first; when that throws, the [catch] block
    runs and no request leaves. *)
Definition submit_listener : js unit :=
  try_catch
    (w ← get;
     encodeURIComponent_throws (activity_value w);;
     encodeURIComponent_throws (email_value w);;
     submit_call)
    submit_catch.

(* ===================================================================== *)
(** * The page as a transition system *)
(* ===================================================================== *)

Definition run_callback (cb : callback) : world → world :=
  match cb with
  | hide_message => classList_add "hidden"
  end.

(** The clock reaches [t]: the timers that are due run, in the order they
    were set, and leave the queue. *)
Definition advance (t : Z) (w : world) : world :=
  let due := filter (λ x, x.1 ≤ t) (timers w) in
  let w' := set_now (Z.max (now w) t) (set_timers (filter (λ x, ¬ x.1 ≤ t)) w) in
  foldl (λ w cb, run_callback cb.2 w) w' due.

Inductive event :=
  | DOMContentLoaded
  | activities_settled (r : fetch_result (list (string * details)))
  | input (email activity : string)
  | submit
  | signup_settled (r : fetch_result result)
  | click (l : listener)
  | unregister_settled (l : listener) (r : fetch_result result)
  | clock (t : Z).

Definition step (e : event) (w : world) : world :=
  match e with
  | DOMContentLoaded => exec fetchActivities_call w
  | activities_settled r => exec (fetchActivities r) w
  | input email activity => set_form email activity w
  | submit => exec submit_listener w
  | signup_settled r => exec (submit_resume r) w
  | click l => exec (click_listener l) w
  | unregister_settled l r => exec (delete_resume l r) w
  | clock t => advance t w
  end.

Definition run (es : list event) (w : world) : world :=
  foldl (λ w e, step e w) w es.

(** A page for the script to start on, used for the concrete runs below: a
    loading paragraph, a placeholder option, a hidden message area. *)
Definition initial_page : world :=
  {| elements := []; activitiesList := [Paragraph "Loading activities..."];
     activitySelect := [{| option_value := ""; option_textContent := "-- Select an activity --" |}];
     clickListeners := []; email_value := ""; activity_value := "";
     messageDiv_textContent := ""; messageDiv_classList := ["hidden"];
     alerts := []; console := []; requests := []; timers := []; now := 0 |}.

(** What [#activities-list] shows: its children with the cards looked up. *)
Inductive shown :=
  | shown_card (c : activity_card)
  | shown_paragraph (text : string).

Definition show (w : world) (n : node) : option shown :=
  match n with
  | Card div => shown_card <$> mjoin (elements w !! div)
  | Paragraph text => Some (shown_paragraph text)
  end.

Definition rendered (w : world) : list (option shown) := show w <$> activitiesList w.

Definition message_hidden (w : world) : Prop := "hidden" ∈ messageDiv_classList w.

Definition chess_club : string * details :=
  ("Chess Club", {| description := "Weekly"; schedule := "Fri 3pm";
                    max_participants := 10; participants := Some ["a@x.com"] |}).

(* ===================================================================== *)
(** * Vocabulary of the statements *)
(* ===================================================================== *)

(** The text of the participants heading for a count. *)
Definition heading (n : Z) : string :=
  "Current Participants (" +:+ Number_toString n +:+ ")".

(** The option appended for an entry, the card written for it and the
    listeners registered on the buttons of that card. *)
Definition option_for (e : string * details) : option_element :=
  {| option_value := e.1; option_textContent := e.1 |}.

Definition entry_card (e : string * details) : option activity_card :=
  card_template e.1 e.2 <$> participants e.2.

Definition entry_listeners (div : nat) (e : string * details) : list listener :=
  from_option (λ c, delete_listener div <$> ul c) [] (entry_card e).

Fixpoint listeners_from (div : nat) (entries : list (string * details)) : list listener :=
  match entries with
  | [] => []
  | e :: entries' => entry_listeners div e ++ listeners_from (S div) entries'
  end.

Definition has_roster (e : string * details) : Prop := is_Some (participants e.2).

(** The load succeeds: the [try] block of [fetchActivities] runs to its end. *)
Definition loads (r : fetch_result (list (string * details))) (w : world) : Prop :=
  ∃ w', fetchActivities_try r w = (Normal (), w').


(** A text is the decimal notation of an integer, as the Standard Library
    reads it. *)
Definition denotes (s : string) (n : Z) : Prop :=
  Z.of_int <$> NilZero.int_of_string s = Some n.


(** Everything of the page but the activity list, the select and the
    listeners. *)
Record same_outside_roster (w w' : world) : Prop := {
  same_email : email_value w' = email_value w;
  same_activity : activity_value w' = activity_value w;
  same_text : messageDiv_textContent w' = messageDiv_textContent w;
  same_class : messageDiv_classList w' = messageDiv_classList w;
  same_alerts : alerts w' = alerts w;
  same_console : console w' = console w;
  same_requests : requests w' = requests w;
  same_timers : timers w' = timers w;
  same_now : now w' = now w
}.

(** The activity list, the select and the listeners. *)
Record same_roster (w w' : world) : Prop := {
  same_elements : elements w' = elements w;
  same_activitiesList : activitiesList w' = activitiesList w;
  same_activitySelect : activitySelect w' = activitySelect w;
  same_clickListeners : clickListeners w' = clickListeners w
}.

(** The whole document: the activity list, the select, the form and the
    message area. *)
Record same_dom (w w' : world) : Prop := {
  dom_roster : same_roster w w';
  dom_email : email_value w' = email_value w;
  dom_activity : activity_value w' = activity_value w;
  dom_text : messageDiv_textContent w' = messageDiv_textContent w;
  dom_class : messageDiv_classList w' = messageDiv_classList w
}.

(** The text of the alert after a removal that failed: the detail of the
    response when its body carries one, the fixed text otherwise. *)
Definition unregister_alert (r : fetch_result result) : string :=
  match r with
  | Resolved {| payload := Json b |} => or_else (detail b) "Failed to unregister participant"
  | _ => "Failed to unregister participant"
  end.

(** The event that renders the activities. *)
Definition settles_load (e : event) : Prop :=
  match e with
  | activities_settled _ => True
  | _ => False
  end.

(** The decimal digits of a count. *)
Definition digits_of (n : nat) : uint :=
  match Z.of_nat n with
  | Z.pos p => Pos.to_uint p
  | _ => D0 Nil
  end.

(** Sample values for the concrete runs. *)
Definition ok_json {A} (a : A) : fetch_result A :=
  Resolved {| ok := true; payload := Json a |}.

Definition chess_row : li :=
  {| li_index := 0; span := "a@x.com"; data_activity := "Chess Club";
     data_email := "a@x.com"; aria_label := "Remove a@x.com" |}.

Definition chess_card : activity_card :=
  {| h4 := "Chess Club"; p_description := "Description: Weekly";
     p_schedule := "Schedule: Fri 3pm"; p_spots := "Spots Available: 9/10";
     h5 := "Current Participants (1)"; ul := [chess_row] |}.

Definition chess_option : option_element :=
  {| option_value := "Chess Club"; option_textContent := "Chess Club" |}.

Definition chess_listener : listener :=
  {| l_card := 0; l_row := 0; l_activity := "Chess Club"; l_email := "a@x.com" |}.

(** The sample page once the Chess Club mapping has been rendered. *)
Definition chess_page : world :=
  run [DOMContentLoaded; activities_settled (ok_json [chess_club])] initial_page.

(* ===================================================================== *)
(** * Decimal text *)
(* ===================================================================== *)

(* ===================================================================== *)
(** * The URLs of the requests (lines 10, 49 and 94) *)
(* ===================================================================== *)

(** The characters [encodeURIComponent] leaves as they are: the letters, the
    digits and [- _ . ! ~ * ' ( )]. *)
Definition unreserved (c : ascii) : bool :=
  let n := N_of_ascii c in
  ((48 <=? n) && (n <=? 57) || (65 <=? n) && (n <=? 90) || (97 <=? n) && (n <=? 122)
   || match c with
      | "-" | "_" | "." | "!" | "~" | "*" | "'" | "(" | ")" => true
      | _ => false
      end%char)%N.

Definition hex_digit (n : N) : ascii :=
  match n with
  | 0 => "0" | 1 => "1" | 2 => "2" | 3 => "3" | 4 => "4" | 5 => "5" | 6 => "6"
  | 7 => "7" | 8 => "8" | 9 => "9" | 10 => "A" | 11 => "B" | 12 => "C"
  | 13 => "D" | 14 => "E" | _ => "F"
  end%char%N.

(** The text [encodeURIComponent(s)] returns for a string without a lone
    surrogate (on one it throws, see [encodeURIComponent_throws]), the string
    being read as the bytes of its UTF-8 encoding: every byte but the
    unreserved characters becomes [%XX], with upper-case hexadecimal
    digits. *)
Fixpoint encodeURIComponent (s : string) : string :=
  match s with
  | EmptyString => EmptyString
  | String c s' =>
      if unreserved c then String c (encodeURIComponent s')
      else String "%" (String (hex_digit (N_of_ascii c / 16))
             (String (hex_digit (N_of_ascii c mod 16)) (encodeURIComponent s')))
  end.

(** The URL and the method handed to [fetch]. *)
Definition request_url (r : request) : string :=
  match r with
  | GET_activities => "/activities"
  | POST_signup activity email =>
      "/activities/" +:+ encodeURIComponent activity
      +:+ "/signup?email=" +:+ encodeURIComponent email
  | DELETE_unregister activity email =>
      "/activities/" +:+ encodeURIComponent activity
      +:+ "/unregister?email=" +:+ encodeURIComponent email
  end.

Definition request_method (r : request) : string :=
  match r with
  | GET_activities => "GET"
  | POST_signup _ _ => "POST"
  | DELETE_unregister _ _ => "DELETE"
  end.

(** Every character of a string passes a test. *)
Fixpoint every (P : ascii → bool) (s : string) : bool :=
  match s with
  | EmptyString => true
  | String c s' => P c && every P s'
  end.

(** Reading [%XX] back, to state that the encoding loses nothing. *)
Definition unhex (c : ascii) : N :=
  let n := N_of_ascii c in
  (if n <? 58 then n - 48 else n - 55)%N.

Fixpoint percent_decode (s : string) : string :=
  match s with
  | EmptyString => EmptyString
  | String c s' =>
      if Ascii.eqb c "%" then
        match s' with
        | String a (String b s'') =>
            String (ascii_of_N (16 * unhex a + unhex b)) (percent_decode s'')
        | _ => String c (percent_decode s')
        end
      else String c (percent_decode s')
  end.

(* ===================================================================== *)
(** * Vocabulary of the invariants *)
(* ===================================================================== *)

(** Every card of the page carries a heading written by the script. *)
Definition well_headed (w : world) : Prop :=
  ∀ div c, elements w !! div = Some (Some c) → ∃ z, h5 c = heading z.

(** A listener matches the page when its card has its content and is named
    after the activity of the listener, and the row of its button, as long as
    it is in the card, displays the e-mail of the listener. *)
Definition listener_matches (w : world) (l : listener) : Prop :=
  ∃ c, elements w !! l_card l = Some (Some c)
    ∧ h4 c = l_activity l
    ∧ ∀ r, r ∈ ul c → li_index r = l_row l →
        span r = l_email l ∧ data_activity r = l_activity l ∧ data_email r = l_email l.

Definition listeners_match (w : world) : Prop :=
  ∀ l, l ∈ clickListeners w → listener_matches w l.

(** Everything of the page but the cards, the list, the select, the
    listeners, the classes of the message area, the timers and the clock. *)
Record same_outside_roster_but_class (w w' : world) : Prop := {
  frame_email : email_value w' = email_value w;
  frame_activity : activity_value w' = activity_value w;
  frame_text : messageDiv_textContent w' = messageDiv_textContent w;
  frame_alerts : alerts w' = alerts w;
  frame_console : console w' = console w;
  frame_requests : requests w' = requests w
}.

(** The events that change what the cards show: the settlement of the load
    and the settlement of a removal with a success status. *)
Definition alters_rosters (e : event) : Prop :=
  match e with
  | activities_settled _ => True
  | unregister_settled _ (Resolved res) => ok res = true
  | _ => False
  end.

(** The requests an event sends: none when a value that goes into the URL
    holds a lone surrogate. *)
Definition sent (e : event) (w : world) : list request :=
  match e with
  | DOMContentLoaded => [GET_activities]
  | submit =>
      if lone_surrogate (activity_value w) || lone_surrogate (email_value w) then []
      else [POST_signup (activity_value w) (email_value w)]
  | click l =>
      if lone_surrogate (l_activity l) || lone_surrogate (l_email l) then []
      else [DELETE_unregister (l_activity l) (l_email l)]
  | _ => []
  end.

(** The alerts an event other than the settlement of a removal opens: the
    one of a click whose URL cannot be built. *)
Definition alerted (e : event) : list string :=
  match e with
  | click l =>
      if lone_surrogate (l_activity l) || lone_surrogate (l_email l)
      then ["Failed to unregister participant"] else []
  | _ => []
  end.

(* ===================================================================== *)
(** * Markup and numbers the model is exact on *)
(* ===================================================================== *)

(** The characters the HTML parser does not take as they stand, in a text or
    in a double-quoted attribute value: NUL, carriage return, the double
    quote, [&] and [<]. *)
Definition markup_character (c : ascii) : bool :=
  existsb (N.eqb (N_of_ascii c)) [0; 13; 34; 38; 60]%N.

Definition markup_free (s : string) : Prop :=
  every (λ c, negb (markup_character c)) s = true.

(** The integers that are doubles together with their neighbours. *)
Definition safe_integer (n : Z) : Prop := - 2 ^ 53 < n < 2 ^ 53.

(** An entry the model renders as the browser does: texts free of markup, a
    safe capacity and a safe difference with the size of the roster. *)
Definition faithful_entry (e : string * details) : Prop :=
  markup_free e.1 ∧ markup_free (description e.2) ∧ markup_free (schedule e.2)
  ∧ Forall markup_free (default [] (participants e.2))
  ∧ safe_integer (max_participants e.2)
  ∧ safe_integer (max_participants e.2 - Z.of_nat (length (default [] (participants e.2)))).

(** An event whose rendering, if any, is of such entries. *)
Definition faithful_event (e : event) : Prop :=
  match e with
  | activities_settled (Resolved {| payload := Json entries |}) =>
      Forall faithful_entry entries
  | _ => True
  end.

Definition dquote : ascii := "034"%char.

(** The markup line 24 writes for participant [p] of activity [name], cut
    after the opening quote of [data-activity]. *)
Definition li_markup_open (p : string) : string :=
  "<li><span>" +:+ p +:+ "</span><button class=" +:+ String dquote "delete-btn"
  +:+ String dquote " data-activity=" +:+ String dquote "".

Definition li_markup_rest (name p : string) : string :=
  name +:+ String dquote " data-email=" +:+ String dquote p
  +:+ String dquote " aria-label=" +:+ String dquote "Remove " +:+ p
  +:+ String dquote ">" +:+ String "226" (String "156" (String "149" "</button></li>")).

Definition li_markup (name p : string) : string :=
  li_markup_open p +:+ li_markup_rest name p.

(** The HTML tokenizer in its state "attribute value (double-quoted)": the
    value runs up to the next double quote. *)
Fixpoint attribute_value (s : string) : string :=
  match s with
  | EmptyString => EmptyString
  | String c s' => if Ascii.eqb c dquote then EmptyString else String c (attribute_value s')
  end.

(** The value of [data-activity] the parser reads from the markup of a row
    (for an e-mail free of markup, so that the tokenizer is in that state
    where [li_markup_open] ends). *)
Definition data_activity_attribute (name p : string) : string :=
  attribute_value (li_markup_rest name p).


(** A capacity above 2^53 that is a double, for one participant. *)
Definition large_club : string * details :=
  ("Large Club", {| description := "Everyone"; schedule := "Daily";
                    max_participants := 2 ^ 53 + 2; participants := Some ["a@x.com"] |}).

Ltac js_simpl :=
  repeat progress (unfold mbind, js_bind, mret, js_ret, get, modify, throw; simpl).

Section decimal_text.

Lemma digits_of_nonnil n : digits_of n ≠ Nil.
Proof.
  unfold digits_of. destruct (Z.of_nat n); try discriminate.
  apply Unsigned.to_uint_nonnil.
Qed.

Lemma Number_toString_nat n :
  Number_toString (Z.of_nat n) = NilEmpty.string_of_uint (digits_of n).
Proof.
  unfold Number_toString, digits_of.
  destruct (Z.of_nat n) as [|p|p] eqn:E; [reflexivity| |lia].
  simpl. pose proof (Unsigned.to_uint_nonnil p) as Hp.
  destruct (Pos.to_uint p); [congruence|reflexivity..].
Qed.

Lemma of_digits_of n : Z.of_uint (digits_of n) = Z.of_nat n.
Proof.
  unfold digits_of. destruct (Z.of_nat n) as [|p|p] eqn:E; [reflexivity| |lia].
  unfold Z.of_uint. now rewrite Unsigned.of_to.
Qed.

Lemma append_cons c (s t : string) : String c s +:+ t = String c (s +:+ t).
Proof. reflexivity. Qed.

Lemma append_empty (s : string) : s +:+ "" = s.
Proof. induction s; [reflexivity|]. rewrite append_cons. now f_equal. Qed.

Lemma leading_digits_uint d rest :
  leading_digits (NilEmpty.string_of_uint d +:+ rest)
  = NilEmpty.string_of_uint d +:+ leading_digits rest.
Proof.
  induction d; [reflexivity|..]; simpl NilEmpty.string_of_uint;
    rewrite !append_cons; simpl; now f_equal.
Qed.

Lemma match_digits_uint d rest :
  d ≠ Nil →
  match_digits (NilEmpty.string_of_uint d +:+ rest)
  = Some (NilEmpty.string_of_uint d +:+ leading_digits rest).
Proof.
  intros Hd. destruct d; [congruence|..]; simpl NilEmpty.string_of_uint;
    rewrite !append_cons; simpl; now rewrite leading_digits_uint.
Qed.

(** The heading written for a count reads back as that count. *)
Lemma heading_match (n : nat) :
  match_digits (heading (Z.of_nat n)) = Some (Number_toString (Z.of_nat n)).
Proof.
  unfold heading.
  rewrite Number_toString_nat. rewrite !append_cons. simpl match_digits.
  change ("" +:+ ?s) with s.
  rewrite match_digits_uint by apply digits_of_nonnil.
  simpl. now rewrite append_empty.
Qed.

Lemma parseInt_count (n : nat) :
  parseInt (Number_toString (Z.of_nat n)) = Some (Z.of_nat n).
Proof.
  unfold parseInt. rewrite Number_toString_nat.
  rewrite <- (append_empty (NilEmpty.string_of_uint _)) at 1.
  rewrite leading_digits_uint. simpl leading_digits. rewrite append_empty.
  pose proof (digits_of_nonnil n) as Hn.
  pose proof (NilEmpty.usu (digits_of n)) as Hu.
  unfold NilZero.uint_of_string.
  destruct (NilEmpty.string_of_uint (digits_of n)) eqn:E.
  - destruct (digits_of n); [congruence|discriminate..].
  - rewrite Hu. simpl. now rewrite of_digits_of.
Qed.

End decimal_text.

(* ===================================================================== *)
(** * Loading the activities *)
(* ===================================================================== *)

Section load.

Lemma insert_snoc {A} (l : list A) (x y : A) : <[length l := y]> (l ++ [x]) = l ++ [y].
Proof.
  replace (length l) with (length l + 0)%nat by lia. now rewrite insert_app_r.
Qed.

Lemma same_outside_roster_refl w : same_outside_roster w w.
Proof. now split. Qed.

Lemma render_activity_ok e roster w :
  participants e.2 = Some roster →
  ∃ w', render_activity e w = (Normal (), w')
    ∧ elements w' = elements w ++ [entry_card e]
    ∧ activitiesList w' = activitiesList w ++ [Card (length (elements w))]
    ∧ activitySelect w' = activitySelect w ++ [option_for e]
    ∧ clickListeners w' = clickListeners w ++ entry_listeners (length (elements w)) e
    ∧ same_outside_roster w w'.
Proof.
  destruct e as [name d]. simpl. intros Hr.
  eexists. unfold render_activity, entry_listeners, entry_card. simpl. rewrite Hr.
  split; [reflexivity|]. simpl. rewrite insert_snoc.
  repeat split; reflexivity.
Qed.

(** An entry without a roster: the [div] is made, nothing is attached. *)
Lemma render_activity_throws e w :
  participants e.2 = None →
  render_activity e w = (Thrown, set_elements (λ l, l ++ [None]) w).
Proof.
  destruct e as [name d]. simpl. intros Hr.
  unfold render_activity. simpl. rewrite Hr. reflexivity.
Qed.

Lemma forEach_render_ok entries : ∀ w,
  Forall has_roster entries →
  ∃ w', forEach entries render_activity w = (Normal (), w')
    ∧ elements w' = elements w ++ (entry_card <$> entries)
    ∧ activitiesList w' = activitiesList w ++ (Card <$> seq (length (elements w)) (length entries))
    ∧ activitySelect w' = activitySelect w ++ (option_for <$> entries)
    ∧ clickListeners w' = clickListeners w ++ listeners_from (length (elements w)) entries
    ∧ same_outside_roster w w'.
Proof.
  induction entries as [|e entries IH]; intros w Hall.
  - exists w. simpl. rewrite !app_nil_r. repeat split; reflexivity.
  - inversion Hall as [|? ? [roster Hr] Hrest]; subst.
    destruct (render_activity_ok e roster w Hr) as (w1 & Hrun & He & Hl & Hs & Hc & Hf).
    destruct (IH w1 Hrest) as (w2 & Hrun2 & He2 & Hl2 & Hs2 & Hc2 & Hf2).
    exists w2. split.
    { simpl. unfold mbind, js_bind. now rewrite Hrun. }
    rewrite He2, Hl2, Hs2, Hc2, He, Hl, Hs, Hc. rewrite length_app. simpl.
    rewrite <- !app_assoc. simpl.
    replace (length (elements w) + 1)%nat with (S (length (elements w))) by lia.
    repeat split; try reflexivity.
    all: try (destruct Hf, Hf2; congruence).
Qed.

(** The iteration stops at the first entry without a roster; the options of
    the entries before it have been appended by then. *)
Lemma forEach_render_throws good bad rest : ∀ w,
  Forall has_roster good → participants bad.2 = None →
  ∃ w', forEach (good ++ bad :: rest) render_activity w = (Thrown, w')
    ∧ activitySelect w' = activitySelect w ++ (option_for <$> good)
    ∧ same_outside_roster w w'.
Proof.
  intros w Hgood Hbad.
  destruct (forEach_render_ok good w Hgood) as (w1 & Hrun & _ & _ & Hs & _ & Hf).
  exists (set_elements (λ l, l ++ [None]) w1). split; [|split; [exact Hs|]].
  - clear Hs Hf. revert w w1 Hrun. induction good as [|e good IH]; intros w w1 Hrun.
    + simpl in Hrun. injection Hrun as <-. simpl. unfold mbind, js_bind.
      now rewrite render_activity_throws.
    + inversion Hgood as [|? ? [roster Hr] Hrest]; subst.
      simpl in *. unfold mbind, js_bind in *.
      destruct (render_activity e w) as [[[]|] w0]; [|discriminate].
      now apply IH.
  - destruct Hf. split; assumption.
Qed.

(** A list of entries is all rosters, or has a first entry without one. *)
Lemma first_without_roster (entries : list (string * details)) :
  Forall has_roster entries
  ∨ ∃ good bad rest, entries = good ++ bad :: rest
      ∧ Forall has_roster good ∧ participants bad.2 = None.
Proof.
  induction entries as [|e entries IH]; [left; constructor|].
  destruct (participants e.2) as [roster|] eqn:Hr.
  - destruct IH as [IH|(good & bad & rest & -> & Hgood & Hbad)].
    + left. constructor; [now exists roster|assumption].
    + right. exists (e :: good), bad, rest. split; [reflexivity|].
      split; [constructor; [now exists roster|assumption]|assumption].
  - right. exists [], e, entries. repeat split; [constructor|assumption].
Qed.

(** The load succeeds exactly when the request resolves, whatever the status,
    to a JSON mapping whose entries all have a roster. *)
Lemma loads_iff r w :
  loads r w ↔ ∃ res entries, r = Resolved res ∧ payload res = Json entries
                 ∧ Forall has_roster entries.
Proof.
  unfold loads, fetchActivities_try. split.
  - intros [w' Hrun]. destruct r as [|[b p]]; [discriminate|].
    destruct p as [| |entries]; try discriminate.
    exists {| ok := b; payload := Json entries |}, entries.
    do 2 (split; [reflexivity|]).
    destruct (first_without_roster entries) as [H|(good & bad & rest & -> & Hg & Hb)];
      [assumption|exfalso].
    destruct (forEach_render_throws good bad rest
                (set_activitiesList (λ _, []) w) Hg Hb) as (w1 & Hthrow & _).
    unfold mbind, js_bind in Hrun. simpl in Hrun.
    unfold mbind, js_bind in Hrun. simpl in Hrun.
    rewrite Hthrow in Hrun. discriminate.
  - intros (res & entries & -> & Hp & Hall). destruct res as [b p]. simpl in Hp. subst p.
    destruct (forEach_render_ok entries (set_activitiesList (λ _, []) w) Hall)
      as (w1 & Hrun & _).
    exists w1. unfold mbind, js_bind. simpl. unfold mbind, js_bind. simpl. exact Hrun.
Qed.

End load.

Section load_results.

Lemma load_ok res entries w :
  payload res = Json entries → Forall has_roster entries →
  ∃ w', fetchActivities (Resolved res) w = (Normal (), w')
    ∧ elements w' = elements w ++ (entry_card <$> entries)
    ∧ activitiesList w' = Card <$> seq (length (elements w)) (length entries)
    ∧ activitySelect w' = activitySelect w ++ (option_for <$> entries)
    ∧ clickListeners w' = clickListeners w ++ listeners_from (length (elements w)) entries
    ∧ same_outside_roster w w'.
Proof.
  intros Hp Hall. destruct res as [b p]. simpl in Hp. subst p.
  destruct (forEach_render_ok entries (set_activitiesList (λ _, []) w) Hall)
    as (w1 & Hrun & He & Hl & Hs & Hc & Hf).
  exists w1. split.
  { unfold fetchActivities, try_catch, fetchActivities_try. js_simpl. now rewrite Hrun. }
  simpl in *. repeat split; try assumption; apply Hf.
Qed.

(** A load that does not run to its end leaves the notice as the only child
    of the list. *)
Lemma failed_load_shows_notice r w :
  ¬ loads r w →
  activitiesList (exec (fetchActivities r) w) = [Paragraph failure_notice].
Proof.
  intros Hno. unfold exec, fetchActivities, try_catch.
  destruct (fetchActivities_try r w) as [[[]|] w1] eqn:Hrun.
  - exfalso. apply Hno. now exists w1.
  - reflexivity.
Qed.

(** A rejected request, a body that is not JSON and a [null] body all fail. *)
Lemma transport_failure_fails w :
  ¬ loads Rejected w
  ∧ (∀ b, ¬ loads (Resolved {| ok := b; payload := NotJson |}) w)
  ∧ (∀ b, ¬ loads (Resolved {| ok := b; payload := JsonNull |}) w).
Proof.
  repeat split; intros; rewrite loads_iff; intros (res & entries & Hr & Hp & _);
    try discriminate; injection Hr as <-; discriminate.
Qed.

(** When the rendering throws at an entry, the options of the entries before
    it stay in the select. *)
Lemma failed_load_keeps_partial_options b good bad rest w :
  Forall has_roster good → participants bad.2 = None →
  let w' := exec (fetchActivities (Resolved {| ok := b; payload := Json (good ++ bad :: rest) |})) w in
  activitiesList w' = [Paragraph failure_notice]
  ∧ activitySelect w' = activitySelect w ++ (option_for <$> good).
Proof.
  intros Hg Hb.
  destruct (forEach_render_throws good bad rest (set_activitiesList (λ _, []) w) Hg Hb)
    as (w1 & Hthrow & Hs & _).
  unfold exec, fetchActivities, try_catch, fetchActivities_try. js_simpl.
  rewrite Hthrow. simpl. split; [reflexivity|exact Hs].
Qed.

(** The status of the response plays no part in the load. *)
Lemma fetchActivities_ignores_status b b' p :
  fetchActivities (Resolved {| ok := b; payload := p |})
  = fetchActivities (Resolved {| ok := b'; payload := p |}).
Proof. reflexivity. Qed.

Lemma rendered_after_load (w w' : world) entries :
  elements w' = elements w ++ (entry_card <$> entries) →
  activitiesList w' = Card <$> seq (length (elements w)) (length entries) →
  rendered w' = (λ e, shown_card <$> entry_card e) <$> entries.
Proof.
  intros He Hl. apply list_eq. intros i. unfold rendered.
  rewrite !list_lookup_fmap, Hl, list_lookup_fmap.
  destruct (decide (i < length entries)%nat) as [Hi|Hi].
  - rewrite lookup_seq_lt by assumption. simpl. rewrite He.
    rewrite lookup_app_r by lia.
    replace (length (elements w) + i - length (elements w))%nat with i by lia.
    rewrite list_lookup_fmap.
    destruct (lookup_lt_is_Some_2 entries i Hi) as [e Hei]. now rewrite Hei.
  - rewrite lookup_seq_ge by lia. rewrite lookup_ge_None_2 by lia. reflexivity.
Qed.

Lemma Number_toString_denotes (n : Z) : denotes (Number_toString n) n.
Proof.
  unfold denotes, Number_toString. rewrite NilZero.isi.
  - simpl. now rewrite DecimalZ.of_to.
  - destruct n as [|p|p]; try discriminate.
    intros [= H]. now apply (Unsigned.to_uint_nonnil p).
  - destruct n as [|p|p]; try discriminate.
    intros [= H]. now apply (Unsigned.to_uint_nonnil p).
Qed.

Lemma round_double_safe (n : Z) : safe_integer n → round_double n = n.
Proof.
  intros Hn. unfold round_double, safe_integer in *.
  destruct (Z.ltb_spec (Z.abs n) (2 ^ 53)) as [_|Habs]; [reflexivity|lia].
Qed.




End load_results.

Section load_claims.


Lemma chess_club_faithful : faithful_entry chess_club.
Proof. repeat split; simpl; try lia. now repeat constructor. Qed.


(** On a name free of markup the parser reads the attribute as the model
    has it: the whole name. *)
Lemma attribute_value_reads (s rest : string) :
  markup_free s → attribute_value (s +:+ String dquote rest) = s.
Proof.
  unfold markup_free. induction s as [|c s IH]; intros Hs.
  - reflexivity.
  - simpl in Hs. apply andb_prop in Hs as [Hc Hs]. rewrite append_cons. simpl.
    destruct (Ascii.eqb_spec c dquote) as [->|_]; [discriminate|].
    now rewrite IH.
Qed.

Lemma data_activity_attribute_plain (name p : string) :
  markup_free name → data_activity_attribute name p = name.
Proof.
  intros Hname. unfold data_activity_attribute, li_markup_rest.
  rewrite append_cons. now apply attribute_value_reads.
Qed.


(** C8, as the script has it.  For every activity of a successful load whose
    texts are free of markup and whose capacity is a safe integer, the card
    displays, as spots left, the decimal notation of the capacity minus the
    size of the roster, over that of the capacity; the difference is not
    negative when the roster does not exceed the capacity. *)
Theorem spots_left_displayed (res : response (list (string * details)))
    (entries : list (string * details)) (w : world)
    (i : nat) (name : string) (d : details) (roster : list string) :
  payload res = Json entries → Forall has_roster entries →
  entries !! i = Some (name, d) → participants d = Some roster →
  faithful_entry (name, d) →
  let w' := exec (fetchActivities (Resolved res)) w in
  ∃ c spots capacity,
    rendered w' !! i = Some (Some (shown_card c))
    ∧ p_spots c = "Spots Available: " +:+ spots +:+ "/" +:+ capacity
    ∧ denotes spots (max_participants d - Z.of_nat (length roster))
    ∧ denotes capacity (max_participants d)
    ∧ (Z.of_nat (length roster) ≤ max_participants d →
       0 ≤ max_participants d - Z.of_nat (length roster)).
Proof.
  intros Hp Hall Hi Hr (_ & _ & _ & _ & _ & Hsafe) w'.
  simpl in Hsafe. rewrite Hr in Hsafe. simpl in Hsafe.
  destruct (load_ok res entries w Hp Hall) as (w2 & Hrun & He & Hl & _).
  assert (w' = w2) as -> by (unfold w', exec; now rewrite Hrun).
  exists (card_template name d roster),
    (Number_toString (max_participants d - Z.of_nat (length roster))),
    (Number_toString (max_participants d)).
  rewrite (rendered_after_load w w2 entries He Hl), list_lookup_fmap, Hi.
  unfold entry_card. simpl. rewrite Hr. unfold spotsLeft.
  rewrite (round_double_safe _ Hsafe).
  repeat split; try apply Number_toString_denotes. lia.
Qed.

Lemma spots_left_displayed_witness :
  ∃ c spots capacity,
    rendered (exec (fetchActivities (ok_json [chess_club])) initial_page) !! 0%nat
    = Some (Some (shown_card c))
    ∧ p_spots c = "Spots Available: " +:+ spots +:+ "/" +:+ capacity
    ∧ denotes spots 9 ∧ denotes capacity 10.
Proof.
  destruct (spots_left_displayed {| ok := true; payload := Json [chess_club] |}
              [chess_club] initial_page 0 "Chess Club" chess_club.2 ["a@x.com"])
    as (c & spots & capacity & Hc & Hs & Hspots & Hcapacity & _).
  - reflexivity.
  - repeat constructor. now exists ["a@x.com"].
  - reflexivity.
  - reflexivity.
  - apply chess_club_faithful.
  - exists c, spots, capacity. now repeat split.
Defined.

(** C8 as written fails on a capacity that is not a safe integer.  With the
    capacity 2^53 + 2, which is a double, and one participant, the difference
    2^53 + 1 is not a double: the subtraction of line 21 rounds it to 2^53,
    and the card displays 9007199254740992 over 9007199254740994, one less
    than the capacity minus the size of the roster. *)
Lemma large_capacity_counterexample :
  let w' := exec (fetchActivities (ok_json [large_club])) initial_page in
  round_double (max_participants large_club.2) = max_participants large_club.2
  ∧ (∃ c, rendered w' = [Some (shown_card c)]
        ∧ p_spots c = "Spots Available: 9007199254740992/9007199254740994")
  ∧ 9007199254740992 ≠ max_participants large_club.2 - 1.
Proof.
  split; [reflexivity|]. split; [|discriminate].
  eexists. split; reflexivity.
Qed.

(** C4, as the script has it.  On every successful load the children of the
    list are replaced by the new cards; the select is not cleared: it keeps
    the options it had and gains, after them, one option per entry of the
    response, in order, with the activity name as value and as label. *)
Theorem load_appends_options (r : fetch_result (list (string * details))) (w : world) :
  loads r w →
  let w' := exec (fetchActivities r) w in
  ∃ res entries, r = Resolved res ∧ payload res = Json entries
    ∧ activitiesList w' = Card <$> seq (length (elements w)) (length entries)
    ∧ activitySelect w' = activitySelect w ++ (option_for <$> entries)
    ∧ Forall (λ o, ∃ e, e ∈ entries ∧ option_value o = e.1 ∧ option_textContent o = e.1)
        (option_for <$> entries).
Proof.
  intros Hloads w'.
  apply loads_iff in Hloads as (res & entries & -> & Hp & Hall).
  exists res, entries. do 2 (split; [reflexivity || assumption|]).
  destruct (load_ok res entries w Hp Hall) as (w2 & Hrun & _ & Hl & Hs & _).
  assert (w' = w2) as -> by (unfold w', exec; now rewrite Hrun).
  do 2 (split; [assumption|]).
  apply Forall_fmap, Forall_forall. intros e He. exists e. now repeat split.
Qed.

Lemma load_appends_options_witness :
  loads (ok_json [chess_club]) initial_page
  ∧ activitySelect (exec (fetchActivities (ok_json [chess_club])) initial_page)
    = activitySelect initial_page ++ [chess_option].
Proof.
  assert (loads (ok_json [chess_club]) initial_page) as Hloads
    by (eexists; reflexivity).
  split; [exact Hloads|].
  destruct (load_appends_options _ _ Hloads) as (res & entries & Hr & Hp & _ & Hs & _).
  injection Hr as <-. simpl in Hp. injection Hp as <-. exact Hs.
Defined.

(** C4 as stated fails: after a successful load of the Chess Club response
    on a page whose select holds the placeholder, the select does not hold
    exactly one option per activity, the placeholder is still there. *)
Lemma dropdown_not_cleared_counterexample :
  let w' := exec (fetchActivities (ok_json [chess_club])) initial_page in
  loads (ok_json [chess_club]) initial_page
  ∧ activitySelect w' ≠ option_for <$> [chess_club]
  ∧ {| option_value := ""; option_textContent := "-- Select an activity --" |}
    ∈ activitySelect w'.
Proof.
  split; [eexists; reflexivity|]. split; [discriminate|].
  apply list_elem_of_here.
Qed.

(** C3, the failing input.  A response with a non-success status whose body
    is the Chess Club mapping is rendered like a successful one: the list
    shows the card and no failure notice.  With the empty mapping as body the
    list is left empty, again without a notice. *)
Theorem non_success_status_is_rendered :
  let r := Resolved {| ok := false; payload := Json [chess_club] |} in
  let w' := exec (fetchActivities r) initial_page in
  let w'' := exec (fetchActivities (Resolved {| ok := false; payload := Json [] |}))
               initial_page in
  loads r initial_page
  ∧ rendered w' = [Some (shown_card chess_card)]
  ∧ (Paragraph failure_notice ∉ activitiesList w')
  ∧ activitiesList w'' = [].
Proof.
  split; [eexists; reflexivity|]. split; [reflexivity|]. split; [|reflexivity].
  intros H. apply list_elem_of_singleton in H. discriminate.
Qed.

End load_claims.

(* ===================================================================== *)
(** * Removing a participant *)
(* ===================================================================== *)

Section removal.

Lemma delete_try_ok (w : world) (l : listener) (res : response result)
    (c : activity_card) (N : nat) :
  ok res = true →
  elements w !! l_card l = Some (Some c) →
  h5 c = heading (Z.of_nat N) →
  delete_try l (Resolved res) w =
  (Normal (), set_elements (alter (fmap (set_h5 (heading (Z.of_nat N - 1)))) (l_card l))
                (set_elements (alter (fmap (remove_row (l_row l))) (l_card l)) w)).
Proof.
  intros Hok Hc Hh. unfold delete_try, h5_textContent. js_simpl.
  rewrite Hok. js_simpl.
  rewrite list_lookup_alter_eq, Hc. simpl. rewrite Hh, heading_match.
  simpl. rewrite parseInt_count. reflexivity.
Qed.

(** C1.  After a successful removal on a card whose heading displays the
    count N, the row of the button is no longer in the card, the heading
    displays exactly N-1, the rest of the card is as it was, and no other
    card, nor anything else of the page, has changed. *)
Theorem delete_success (w : world) (l : listener) (res : response result)
    (c : activity_card) (N : nat) :
  ok res = true →
  elements w !! l_card l = Some (Some c) →
  h5 c = heading (Z.of_nat N) →
  let w' := exec (delete_resume l (Resolved res)) w in
  (∃ c', elements w' !! l_card l = Some (Some c')
     ∧ (∀ r, r ∈ ul c' → li_index r ≠ l_row l)
     ∧ ul c' = filter (λ r, li_index r ≠ l_row l) (ul c)
     ∧ h5 c' = heading (Z.of_nat N - 1)
     ∧ h4 c' = h4 c ∧ p_description c' = p_description c
     ∧ p_schedule c' = p_schedule c ∧ p_spots c' = p_spots c)
  ∧ (∀ div, div ≠ l_card l → elements w' !! div = elements w !! div)
  ∧ (∀ n, n ≠ Card (l_card l) → show w' n = show w n)
  ∧ activitiesList w' = activitiesList w
  ∧ activitySelect w' = activitySelect w
  ∧ same_outside_roster w w'.
Proof.
  intros Hok Hc Hh w'.
  assert (w' = set_elements (alter (fmap (set_h5 (heading (Z.of_nat N - 1)))) (l_card l))
                 (set_elements (alter (fmap (remove_row (l_row l))) (l_card l)) w)) as ->.
  { unfold w', exec, delete_resume, try_catch.
    now rewrite (delete_try_ok w l res c N Hok Hc Hh). }
  assert (∀ div, div ≠ l_card l →
            alter (fmap (set_h5 (heading (Z.of_nat N - 1)))) (l_card l)
              (alter (fmap (remove_row (l_row l))) (l_card l) (elements w)) !! div
            = elements w !! div) as Hother.
  { intros div Hne. now rewrite !list_lookup_alter_ne by congruence. }
  simpl. split; [|split; [exact Hother|split; [|repeat split]]].
  - exists (set_h5 (heading (Z.of_nat N - 1)) (remove_row (l_row l) c)).
    rewrite !list_lookup_alter_eq, Hc. simpl. repeat split.
    intros r Hr. now apply list_elem_of_filter in Hr as [Hr _].
  - intros [div|text] Hn; [|reflexivity]. unfold show. simpl.
    rewrite Hother by congruence. reflexivity.
Qed.

Lemma delete_success_witness :
  ok {| ok := true; payload := @NotJson result |} = true
  ∧ elements chess_page !! l_card chess_listener = Some (Some chess_card)
  ∧ h5 chess_card = heading (Z.of_nat 1)
  ∧ ∃ c', elements (exec (delete_resume chess_listener
                            (Resolved {| ok := true; payload := NotJson |})) chess_page)
          !! l_card chess_listener = Some (Some c')
        ∧ ul c' = [] ∧ h5 c' = "Current Participants (0)".
Proof.
  do 3 (split; [reflexivity|]).
  destruct (delete_success chess_page chess_listener
              {| ok := true; payload := NotJson |} chess_card 1)
    as [(c' & Hc' & _ & Hul & Hh & _) _]; try reflexivity.
  exists c'. split; [exact Hc'|]. split; [exact Hul|exact Hh].
Defined.

(** A freshly rendered card displays the number of its rows, and the rows
    have distinct identities. *)
Lemma card_template_count name d roster :
  h5 (card_template name d roster) = heading (Z.of_nat (length (ul (card_template name d roster))))
  ∧ NoDup (li_index <$> ul (card_template name d roster)).
Proof.
  simpl. rewrite length_imap. split; [reflexivity|].
  apply NoDup_alt. intros i j x Hi Hj.
  rewrite list_lookup_fmap, list_lookup_imap in Hi, Hj.
  destruct (roster !! i); [|discriminate]. destruct (roster !! j); [|discriminate].
  simpl in *. congruence.
Qed.

Lemma filter_out_one (rows : list li) (row : nat) :
  NoDup (li_index <$> rows) → row ∈ (li_index <$> rows) →
  S (length (filter (λ r, li_index r ≠ row) rows)) = length rows.
Proof.
  induction rows as [|x rows IH]; intros Hnd Hin; [inversion Hin|].
  rewrite fmap_cons in Hnd, Hin. apply NoDup_cons in Hnd as [Hx Hnd].
  destruct (decide (li_index x = row)) as [<-|Hne].
  - rewrite filter_cons_False by (intros H; now apply H).
    simpl. f_equal. f_equal. clear IH Hin Hnd.
    induction rows as [|y rows IH]; [reflexivity|].
    rewrite fmap_cons in Hx. apply not_elem_of_cons in Hx as [Hy Hx].
    rewrite filter_cons_True by congruence. f_equal. now apply IH.
  - rewrite filter_cons_True by assumption. simpl. f_equal. apply IH; [assumption|].
    apply elem_of_cons in Hin as [Hin|Hin]; [congruence|assumption].
Qed.

(** X13.  The displayed count stays the number of rows, and the rows stay
    distinct, over a successful removal of a row that is in the card. *)
Lemma delete_success_keeps_count (w : world) (l : listener) (res : response result)
    (c : activity_card) :
  ok res = true →
  elements w !! l_card l = Some (Some c) →
  h5 c = heading (Z.of_nat (length (ul c))) →
  NoDup (li_index <$> ul c) → l_row l ∈ (li_index <$> ul c) →
  ∃ c', elements (exec (delete_resume l (Resolved res)) w) !! l_card l = Some (Some c')
      ∧ h5 c' = heading (Z.of_nat (length (ul c')))
      ∧ NoDup (li_index <$> ul c').
Proof.
  intros Hok Hc Hh Hnd Hin.
  unfold exec, delete_resume, try_catch.
  rewrite (delete_try_ok w l res c (length (ul c)) Hok Hc Hh). simpl.
  rewrite !list_lookup_alter_eq, Hc. simpl. eexists. split; [reflexivity|]. simpl.
  pose proof (filter_out_one (ul c) (l_row l) Hnd Hin) as Hlen. split.
  - f_equal. lia.
  - eapply sublist_NoDup; [exact Hnd|]. apply fmap_sublist, sublist_filter.
Qed.

(** A second and a third success settled for the same button find the row
    gone and still count down: the heading reads 0, then -1, and the digits
    of -1 read back as 1, so the third settlement writes 0 again. *)
Example repeated_settlement :
  let ok_response := Resolved {| ok := true; payload := @NotJson result |} in
  let settle := unregister_settled chess_listener ok_response in
  (h5 <$> mjoin (elements (run [settle] chess_page) !! 0%nat),
   h5 <$> mjoin (elements (run [settle; settle] chess_page) !! 0%nat),
   h5 <$> mjoin (elements (run [settle; settle; settle] chess_page) !! 0%nat))
  = (Some "Current Participants (0)", Some "Current Participants (-1)",
     Some "Current Participants (0)").
Proof. reflexivity. Qed.

(** On the failure paths of the handler the [try] block throws or alerts
    without touching the document. *)
Lemma delete_failure_run (w : world) (l : listener) (r : fetch_result result) :
  r = Rejected ∨ (∃ res, r = Resolved res ∧ ok res = false) →
  ∃ log, exec (delete_resume l r) w
         = set_console (λ c, c ++ log) (set_alerts (λ a, a ++ [unregister_alert r]) w).
Proof.
  intros [->|(res & -> & Hok)].
  - exists ["Error unregistering:"]. reflexivity.
  - destruct res as [b [| |[m d]]]; simpl in Hok; subst b.
    + exists ["Error unregistering:"]. reflexivity.
    + exists ["Error unregistering:"]. reflexivity.
    + exists []. unfold exec, delete_resume, try_catch, delete_try, alert. js_simpl.
      unfold set_console, set_alerts. simpl. now rewrite app_nil_r.
Qed.

(** C6.  After a removal that failed, by a non-success response or by a
    transport error, the document is as it was, the row included, and one
    alert has been shown: the detail of the response when its body is a JSON
    object with a detail that is not empty, the fixed text "Failed to
    unregister participant" in every other case. *)
Theorem delete_failure (w : world) (l : listener) (r : fetch_result result) :
  r = Rejected ∨ (∃ res, r = Resolved res ∧ ok res = false) →
  let w' := exec (delete_resume l r) w in
  same_dom w w'
  ∧ rendered w' = rendered w
  ∧ alerts w' = alerts w ++
      [match r with
       | Resolved {| payload := Json {| detail := Some (String c text) |} |} =>
           String c text
       | _ => "Failed to unregister participant"
       end]
  ∧ timers w' = timers w ∧ requests w' = requests w.
Proof.
  intros Hfail w'. destruct (delete_failure_run w l r Hfail) as [log Hrun].
  unfold w'. rewrite Hrun. repeat split.
  destruct r as [|[k [| |[m [[|c text]|]]]]]; reflexivity.
Qed.

Lemma delete_failure_witness :
  let r := Resolved {| ok := false;
                       payload := Json {| message := None; detail := Some "Not signed up" |} |} in
  let bare := Resolved {| ok := false;
                          payload := Json {| message := None; detail := None |} |} in
  (r = Rejected ∨ (∃ res, r = Resolved res ∧ ok res = false))
  ∧ (bare = Rejected ∨ (∃ res, bare = Resolved res ∧ ok res = false))
  ∧ same_dom chess_page (exec (delete_resume chess_listener r) chess_page)
  ∧ alerts (exec (delete_resume chess_listener r) chess_page) = ["Not signed up"]
  ∧ alerts (exec (delete_resume chess_listener bare) chess_page)
    = ["Failed to unregister participant"].
Proof.
  intros r bare.
  assert (r = Rejected ∨ (∃ res, r = Resolved res ∧ ok res = false)) as Hfail.
  { right. eexists. split; reflexivity. }
  assert (bare = Rejected ∨ (∃ res, bare = Resolved res ∧ ok res = false)) as Hbare.
  { right. eexists. split; reflexivity. }
  split; [exact Hfail|]. split; [exact Hbare|].
  destruct (delete_failure chess_page chess_listener r Hfail) as (Hdom & _ & Ha & _).
  destruct (delete_failure chess_page chess_listener bare Hbare) as (_ & _ & Hb & _).
  split; [exact Hdom|]. split; [exact Ha|exact Hb].
Defined.

End removal.

(* ===================================================================== *)
(** * Signing up *)
(* ===================================================================== *)

Section signup.

(** The three ways the continuation of the submit handler ends. *)
Lemma submit_run_success (w : world) (b : result) :
  exec (submit_resume (Resolved {| ok := true; payload := Json b |})) w
  = set_timers (λ l, l ++ [(now w + 5000, hide_message)])
      (set_messageDiv_classList (λ _, ["success"])
         (set_form "" "" (set_messageDiv_textContent (text_of (message b)) w))).
Proof. reflexivity. Qed.

Lemma submit_run_refused (w : world) (b : result) :
  exec (submit_resume (Resolved {| ok := false; payload := Json b |})) w
  = set_timers (λ l, l ++ [(now w + 5000, hide_message)])
      (set_messageDiv_classList (λ _, ["error"])
         (set_messageDiv_textContent (or_else (detail b) "An error occurred") w)).
Proof. reflexivity. Qed.

Lemma submit_run_caught (w : world) (r : fetch_result result) :
  (∀ k b, r ≠ Resolved {| ok := k; payload := Json b |}) →
  exec (submit_resume r) w
  = set_console (λ c, c ++ ["Error signing up:"])
      (set_messageDiv_classList (λ _, ["error"])
         (set_messageDiv_textContent "Failed to sign up. Please try again." w)).
Proof.
  intros Hr. destruct r as [|[k [| |b]]]; try reflexivity.
  - now destruct k.
  - now destruct (Hr k b).
Qed.

(** When the body of the response parses, the message is shown and one timer
    is set, due 5000 ms after the settlement. *)
Lemma submit_schedules_hide (w : world) (k : bool) (b : result) :
  let w' := exec (submit_resume (Resolved {| ok := k; payload := Json b |})) w in
  ¬ message_hidden w' ∧ timers w' = timers w ++ [(now w + 5000, hide_message)].
Proof.
  destruct k; [rewrite submit_run_success|rewrite submit_run_refused];
    (split; [|reflexivity]); unfold message_hidden; simpl;
    intros H; apply list_elem_of_singleton in H; discriminate.
Qed.

Lemma callbacks_keep_hidden (due : list (Z * callback)) : ∀ w,
  message_hidden w → message_hidden (foldl (λ w cb, run_callback cb.2 w) w due).
Proof.
  induction due as [|[d []] due IH]; intros w Hw; [exact Hw|].
  simpl. apply IH. unfold message_hidden, classList_add in *. simpl.
  now destruct (decide _).
Qed.

(** Once the clock reaches the date of a pending timer the message area is
    hidden, whatever it shows by then. *)
Lemma advance_hides (w : world) (d t : Z) :
  (d, hide_message) ∈ timers w → d ≤ t → message_hidden (advance t w).
Proof.
  intros Hin Hd. unfold advance.
  assert ((d, hide_message) ∈ filter (λ x, x.1 ≤ t) (timers w)) as Hdue
    by (apply list_elem_of_filter; now split).
  destruct (filter (λ x, x.1 ≤ t) (timers w)) as [|[d0 []] due]; [inversion Hdue|].
  simpl. apply callbacks_keep_hidden. unfold message_hidden, classList_add. simpl.
  destruct (decide _) as [H|H]; [exact H|]. apply elem_of_app. right.
  apply list_elem_of_here.
Qed.

(** Before the date of every pending timer the clock changes nothing of the
    message area. *)
Lemma advance_early (w : world) (t : Z) :
  Forall (λ x, t < x.1) (timers w) →
  messageDiv_classList (advance t w) = messageDiv_classList w
  ∧ messageDiv_textContent (advance t w) = messageDiv_textContent w.
Proof.
  intros Hall. unfold advance.
  replace (filter (λ x, x.1 ≤ t) (timers w)) with (@nil (Z * callback)); [now split|].
  symmetry. induction Hall as [|x l Hx _ IH]; [reflexivity|].
  rewrite filter_cons_False by lia. exact IH.
Qed.

(** C2, the failing input.  A signup whose request is rejected shows its
    message and sets no timer: with no other timer pending, the message is
    still shown at every later date, 5000 ms after the settlement included. *)
Theorem rejected_signup_message_stays (t : Z) :
  let w := run [input "a@x.com" "Chess Club"; submit; signup_settled Rejected] chess_page in
  timers w = []
  ∧ messageDiv_textContent (advance t w) = "Failed to sign up. Please try again."
  ∧ ¬ message_hidden (advance t w).
Proof.
  split; [reflexivity|]. split; [reflexivity|].
  unfold message_hidden. simpl. intros H. apply list_elem_of_singleton in H.
  discriminate.
Qed.

(** C5, as the script has it.  The body is parsed before the status is
    looked at.  A success response whose body is a JSON object shows the
    message of the body (nothing when it has none) with the success style
    and resets the form.  A non-success response whose body is a JSON object
    shows its detail, or "An error occurred" when the detail is missing or
    empty, with the error style, and leaves the form.  In every other case
    (rejected request, body that is not JSON or is [null], whatever the
    status) the text is "Failed to sign up. Please try again." with the
    error style, and the form is left as it was. *)
Theorem submit_outcome (w : world) (r : fetch_result result) :
  let w' := exec (submit_resume r) w in
  match r with
  | Resolved {| ok := true; payload := Json {| message := m |} |} =>
      messageDiv_textContent w' = match m with Some text => text | None => "" end
      ∧ messageDiv_classList w' = ["success"]
      ∧ email_value w' = "" ∧ activity_value w' = ""
  | Resolved {| ok := false; payload := Json {| detail := d |} |} =>
      messageDiv_textContent w'
      = match d with
        | Some (String c text) => String c text
        | _ => "An error occurred"
        end
      ∧ messageDiv_classList w' = ["error"]
      ∧ email_value w' = email_value w ∧ activity_value w' = activity_value w
  | _ =>
      messageDiv_textContent w' = "Failed to sign up. Please try again."
      ∧ messageDiv_classList w' = ["error"]
      ∧ email_value w' = email_value w ∧ activity_value w' = activity_value w
  end.
Proof.
  destruct r as [|[[] [| |[[m|] [[|c text]|]]]]]; repeat split.
Qed.

(** C5 as stated fails: a success response whose body is not JSON gets the
    error style and the form keeps its values. *)
Lemma success_status_not_json_counterexample :
  let res := {| ok := true; payload := @NotJson result |} in
  let w := set_form "a@x.com" "Chess Club" chess_page in
  let w' := exec (submit_resume (Resolved res)) w in
  ok res = true
  ∧ messageDiv_classList w' ≠ ["success"]
  ∧ messageDiv_classList w' = ["error"]
  ∧ email_value w' = "a@x.com" ∧ email_value w' ≠ "".
Proof. repeat split; discriminate. Qed.

(** C9.  The submit handler sends the one signup request and nothing else;
    its continuation, whatever the outcome, sends no request and leaves the
    cards, the list, the select and the listeners as they were: what the list
    shows is unchanged. *)
Theorem signup_leaves_rosters (w : world) (r : fetch_result result) :
  let w1 := exec submit_call w in
  let w2 := exec (submit_resume r) w1 in
  requests w1 = requests w ++ [POST_signup (activity_value w) (email_value w)]
  ∧ requests w2 = requests w1
  ∧ same_roster w w2
  ∧ rendered w2 = rendered w.
Proof.
  destruct r as [|[[] [| |b]]]; repeat split.
Qed.

(** C10.  A success response whose body is not JSON ends like a transport
    failure: the fixed failure text with the error style, the form as it
    was, and no timer set. *)
Theorem success_status_not_json (w : world) :
  let w' := exec (submit_resume (Resolved {| ok := true; payload := NotJson |})) w in
  w' = exec (submit_resume Rejected) w
  ∧ messageDiv_textContent w' = "Failed to sign up. Please try again."
  ∧ messageDiv_classList w' = ["error"]
  ∧ email_value w' = email_value w ∧ activity_value w' = activity_value w
  ∧ timers w' = timers w.
Proof. repeat split. Qed.

End signup.

(* ===================================================================== *)
(** * Rows over a run of the page *)
(* ===================================================================== *)

Section runs.

(** Whatever the outcome of a removal, the rows of a card afterwards are
    among the rows it had. *)
Lemma delete_resume_rows (l : listener) (r : fetch_result result) (w : world)
    (div : nat) (c' : activity_card) :
  elements (exec (delete_resume l r) w) !! div = Some (Some c') →
  ∃ c, elements w !! div = Some (Some c) ∧ ul c' `sublist_of` ul c.
Proof.
  assert (∀ els : list (option activity_card),
            (els = elements w
             ∨ els = alter (fmap (remove_row (l_row l))) (l_card l) (elements w)
             ∨ ∃ s, els = alter (fmap (set_h5 s)) (l_card l)
                            (alter (fmap (remove_row (l_row l))) (l_card l) (elements w))) →
            els !! div = Some (Some c') →
            ∃ c, elements w !! div = Some (Some c) ∧ ul c' `sublist_of` ul c) as Hcases.
  { intros els [->|[->|[s ->]]] Hlook.
    - now exists c'.
    - destruct (decide (l_card l = div)) as [<-|Hne].
      + rewrite list_lookup_alter_eq in Hlook.
        destruct (elements w !! l_card l) as [[c|]|]; try discriminate.
        injection Hlook as <-. exists c. split; [reflexivity|apply sublist_filter].
      + rewrite list_lookup_alter_ne in Hlook by assumption. now exists c'.
    - destruct (decide (l_card l = div)) as [<-|Hne].
      + rewrite !list_lookup_alter_eq in Hlook.
        destruct (elements w !! l_card l) as [[c|]|]; try discriminate.
        injection Hlook as <-. exists c. split; [reflexivity|apply sublist_filter].
      + rewrite !list_lookup_alter_ne in Hlook by assumption. now exists c'. }
  apply Hcases. clear Hcases.
  destruct r as [|[[] p]].
  - now left.
  - right. unfold exec, delete_resume, try_catch, delete_try, h5_textContent. js_simpl.
    destruct (alter _ _ _ !! l_card l) as [[c|]|]; js_simpl; try now left.
    destruct (match_digits (h5 c)); js_simpl; [right; eauto|now left].
  - left. destruct p as [| |b]; reflexivity.
Qed.

(** The two handlers up to their [await]: the [catch] block when a value
    cannot be encoded, the request otherwise. *)
Lemma click_listener_run (l : listener) (w : world) :
  exec (click_listener l) w
  = if lone_surrogate (l_activity l) || lone_surrogate (l_email l)
    then exec delete_catch w else exec (delete_click l) w.
Proof.
  unfold exec, click_listener, try_catch, encodeURIComponent_throws. js_simpl.
  destruct (lone_surrogate (l_activity l)); [reflexivity|]. js_simpl.
  now destruct (lone_surrogate (l_email l)).
Qed.

Lemma submit_listener_run (w : world) :
  exec submit_listener w
  = if lone_surrogate (activity_value w) || lone_surrogate (email_value w)
    then exec submit_catch w else exec submit_call w.
Proof.
  unfold exec, submit_listener, try_catch, encodeURIComponent_throws. js_simpl.
  destruct (lone_surrogate (activity_value w)); [reflexivity|]. js_simpl.
  now destruct (lone_surrogate (email_value w)).
Qed.

(** An event other than the settlement of the load adds no row to any card
    and leaves the children of the list as they are. *)
Lemma step_rows (e : event) (w : world) (div : nat) (c' : activity_card) :
  ¬ settles_load e →
  elements (step e w) !! div = Some (Some c') →
  activitiesList (step e w) = activitiesList w
  ∧ ∃ c, elements w !! div = Some (Some c) ∧ ul c' `sublist_of` ul c.
Proof.
  intros Hload Hlook. destruct e as [|r|email activity| |r|l|l r|t]; simpl in *.
  - split; [reflexivity|now exists c'].
  - now destruct Hload.
  - split; [reflexivity|now exists c'].
  - rewrite submit_listener_run in *.
    destruct (lone_surrogate (activity_value w) || lone_surrogate (email_value w));
      (split; [reflexivity|now exists c']).
  - assert (elements (exec (submit_resume r) w) = elements w
            ∧ activitiesList (exec (submit_resume r) w) = activitiesList w) as [He' Hl'].
    { destruct r as [|[[] [| |b]]]; now split. }
    rewrite He' in Hlook. split; [exact Hl'|now exists c'].
  - rewrite click_listener_run in *.
    destruct (lone_surrogate (l_activity l) || lone_surrogate (l_email l));
      (split; [reflexivity|now exists c']).
  - split; [|now apply (delete_resume_rows l r)].
    destruct r as [|[[] p]]; try reflexivity.
    + unfold exec, delete_resume, try_catch, delete_try, h5_textContent. js_simpl.
      destruct (alter _ _ _ !! l_card l) as [[c|]|]; js_simpl; try reflexivity.
      destruct (match_digits (h5 c)); reflexivity.
    + destruct p as [| |b]; reflexivity.
  - assert (∀ (due : list (Z * callback)) (w0 : world),
              elements (foldl (λ w cb, run_callback cb.2 w) w0 due) = elements w0
              ∧ activitiesList (foldl (λ w cb, run_callback cb.2 w) w0 due)
                = activitiesList w0) as Hfold.
    { induction due as [|[d []] due IH]; intros w0; [now split|].
      simpl. destruct (IH (classList_add "hidden" w0)) as [-> ->]. now split. }
    unfold advance in *. destruct (Hfold (filter (λ x, x.1 ≤ t) (timers w))
      (set_now (Z.max (now w) t) (set_timers (filter (λ x, ¬ x.1 ≤ t)) w))) as [He Hl].
    rewrite He in Hlook. rewrite Hl. split; [reflexivity|now exists c'].
Qed.

(** X12.  Over a run without a settlement of the load no row is ever added
    to a card and the children of the list stay as they are: a new
    participant can only show up when the activities are loaded again. *)
Lemma rows_only_shrink (es : list event) : ∀ (w : world) (div : nat) (c' : activity_card),
  Forall (λ e, ¬ settles_load e) es →
  elements (run es w) !! div = Some (Some c') →
  activitiesList (run es w) = activitiesList w
  ∧ ∃ c, elements w !! div = Some (Some c) ∧ ul c' `sublist_of` ul c.
Proof.
  induction es as [|e es IH]; intros w div c' Hall Hlook.
  - split; [reflexivity|now exists c'].
  - inversion Hall as [|? ? He Hes]; subst. simpl in Hlook.
    destruct (IH (step e w) div c' Hes Hlook) as [Hl (c1 & Hc1 & Hsub1)].
    destruct (step_rows e w div c1 He Hc1) as [Hl0 (c & Hc & Hsub)].
    split; [unfold run in *; simpl; congruence|].
    exists c. split; [exact Hc|]. now transitivity (ul c1).
Qed.

End runs.

(* ===================================================================== *)
(** * The URLs of the requests *)
(* ===================================================================== *)

Section urls.

Lemma hex_digit_unreserved (n : N) : unreserved (hex_digit n) = true.
Proof.
  destruct n as [|p]; [reflexivity|].
  do 5 (try destruct p as [p|p|]; try reflexivity).
Qed.

Lemma unreserved_not_delimiter (c : ascii) :
  unreserved c = true →
  existsb (Ascii.eqb c) ["%"; "/"; "?"; "&"; "="; "#"; "+"; " "]%char = false.
Proof.
  destruct c as [[] [] [] [] [] [] [] []]; vm_compute; congruence.
Qed.

Lemma hex_pair_reads_back (c : ascii) :
  ascii_of_N (16 * unhex (hex_digit (N_of_ascii c / 16))
              + unhex (hex_digit (N_of_ascii c mod 16))) = c.
Proof. destruct c as [[] [] [] [] [] [] [] []]; reflexivity. Qed.

Lemma encoded_characters (s : string) :
  every (λ c, unreserved c || Ascii.eqb c "%") (encodeURIComponent s) = true.
Proof.
  induction s as [|c s IH]; [reflexivity|]. simpl.
  destruct (unreserved c) eqn:Hc; simpl.
  - now rewrite Hc.
  - now rewrite !hex_digit_unreserved.
Qed.

Lemma percent_decode_encode (s : string) :
  percent_decode (encodeURIComponent s) = s.
Proof.
  induction s as [|c s IH]; [reflexivity|]. simpl.
  destruct (unreserved c) eqn:Hc.
  - simpl. destruct (Ascii.eqb_spec c "%") as [->|_]; [discriminate|]. now rewrite IH.
  - simpl. now rewrite IH, hex_pair_reads_back.
Qed.

Lemma encodeURIComponent_inj (s t : string) :
  encodeURIComponent s = encodeURIComponent t → s = t.
Proof.
  intros H. rewrite <- (percent_decode_encode s), <- (percent_decode_encode t).
  now rewrite H.
Qed.

Lemma encoded_no_slash (s : string) :
  every (λ c, negb (Ascii.eqb c "/")) (encodeURIComponent s) = true.
Proof.
  pose proof (encoded_characters s) as H.
  induction (encodeURIComponent s) as [|c e IH]; [reflexivity|].
  simpl in *. apply andb_prop in H as [Hc He]. rewrite (IH He), andb_true_r.
  apply orb_prop in Hc as [Hc|Hc].
  - apply unreserved_not_delimiter in Hc. simpl in Hc.
    apply orb_false_elim in Hc as [_ Hc]. apply orb_false_elim in Hc as [Hc _].
    now rewrite Hc.
  - apply Ascii.eqb_eq in Hc as ->. reflexivity.
Qed.

(** Two strings without a slash, each followed by a slash: the first slash
    tells where they end. *)
Lemma split_at_slash (s1 : string) : ∀ s2 r1 r2,
  every (λ c, negb (Ascii.eqb c "/")) s1 = true →
  every (λ c, negb (Ascii.eqb c "/")) s2 = true →
  s1 +:+ String "/" r1 = s2 +:+ String "/" r2 → s1 = s2 ∧ r1 = r2.
Proof.
  induction s1 as [|c s1 IH]; intros [|d s2] r1 r2 H1 H2 H.
  - change ("" +:+ ?s) with s in H. now injection H.
  - rewrite append_cons in H. change ("" +:+ ?s) with s in H.
    injection H as <- _. discriminate.
  - rewrite append_cons in H. change ("" +:+ ?s) with s in H.
    injection H as -> _. discriminate.
  - rewrite !append_cons in H. injection H as <- H. simpl in H1, H2.
    apply andb_prop in H1 as [_ H1]. apply andb_prop in H2 as [_ H2].
    destruct (IH s2 r1 r2 H1 H2 H) as [-> ->]. now split.
Qed.

End urls.

Section url_results.

Ltac open_url H :=
  unfold request_url in H; rewrite ?append_cons in H;
  change ("" +:+ ?s) with s in H.

(** X2.  The URL tells the request: two requests of the script have the same
    URL exactly when they are the same request, with the same activity and
    the same e-mail. *)
Theorem request_url_tells_request (r1 r2 : request) :
  request_url r1 = request_url r2 ↔ r1 = r2.
Proof.
  split; [|now intros ->].
  destruct r1 as [|a1 e1|a1 e1], r2 as [|a2 e2|a2 e2]; intros H;
    try reflexivity; open_url H; simplify_eq.
  all: match goal with
       | H : _ +:+ _ = _ +:+ _ |- _ =>
           apply split_at_slash in H as [Ha He]; [|apply encoded_no_slash..]
       end.
  all: rewrite ?append_cons in He; change ("" +:+ ?s) with s in He; simplify_eq.
  all: apply encodeURIComponent_inj in Ha as ->;
       match goal with H : encodeURIComponent _ = encodeURIComponent _ |- _ =>
         apply encodeURIComponent_inj in H as -> end; reflexivity.
Qed.

End url_results.

(* ===================================================================== *)
(** * The timers of the message area *)
(* ===================================================================== *)

Section timers.

Lemma callbacks_frame (due : list (Z * callback)) : ∀ w : world,
  let w' := foldl (λ w cb, run_callback cb.2 w) w due in
  same_roster w w' ∧ same_outside_roster_but_class w w'.
Proof.
  induction due as [|[d []] due IH]; intros w; [now repeat split|].
  simpl. destruct (IH (classList_add "hidden" w)) as [[] []].
  split; split; assumption.
Qed.

Lemma advance_frame (t : Z) (w : world) :
  same_roster w (advance t w) ∧ same_outside_roster_but_class w (advance t w).
Proof.
  unfold advance.
  destruct (callbacks_frame (filter (λ x, x.1 ≤ t) (timers w))
              (set_now (Z.max (now w) t) (set_timers (filter (λ x, ¬ x.1 ≤ t)) w)))
    as [[] []].
  split; split; assumption.
Qed.

(** X3.  When the body of the signup response parses and no timer is pending
    for an earlier date, the message is shown for exactly 5000 ms: it is
    still shown at every date before the settlement plus 5000 ms and hidden
    at every date from then on. *)
Theorem message_shown_for_5000_ms (w : world) (k : bool) (b : result) (t : Z) :
  Forall (λ x, now w + 5000 ≤ x.1) (timers w) →
  let w' := exec (submit_resume (Resolved {| ok := k; payload := Json b |})) w in
  (t < now w + 5000 → ¬ message_hidden (advance t w'))
  ∧ (now w + 5000 ≤ t → message_hidden (advance t w')).
Proof.
  intros Hpending w'.
  destruct (submit_schedules_hide w k b) as [Hshown Htimers]. fold w' in Hshown, Htimers.
  split; intros Ht.
  - unfold message_hidden in *.
    destruct (advance_early w' t) as [-> _]; [|exact Hshown].
    rewrite Htimers. apply Forall_app. split.
    + eapply Forall_impl; [exact Hpending|]. simpl. intros x Hx. lia.
    + repeat constructor. simpl. lia.
  - apply (advance_hides w' (now w + 5000) t); [|exact Ht].
    rewrite Htimers. apply elem_of_app. right. apply list_elem_of_here.
Qed.

Lemma message_shown_for_5000_ms_witness :
  Forall (λ x, now chess_page + 5000 ≤ x.1) (timers chess_page)
  ∧ ¬ message_hidden (advance 4999 (exec (submit_resume
        (ok_json {| message := Some "Signed up"; detail := None |})) chess_page))
  ∧ message_hidden (advance 5000 (exec (submit_resume
        (ok_json {| message := Some "Signed up"; detail := None |})) chess_page)).
Proof.
  assert (Forall (λ x, now chess_page + 5000 ≤ x.1) (timers chess_page)) as Hpending
    by constructor.
  split; [exact Hpending|]. split.
  - apply (message_shown_for_5000_ms chess_page true
             {| message := Some "Signed up"; detail := None |} 4999 Hpending).
    simpl. lia.
  - apply (message_shown_for_5000_ms chess_page true
             {| message := Some "Signed up"; detail := None |} 5000 Hpending).
    simpl. lia.
Defined.

(** X4.  A timer runs on whatever the message area shows by then: when a
    timer of an earlier message is pending at a date d, the message of a
    signup settled in the meantime is hidden from d on, however short it has
    been shown, with its text still in place. *)
Theorem pending_timer_hides_newer_message (w : world) (k : bool) (b : result) (d t : Z) :
  (d, hide_message) ∈ timers w → d ≤ t →
  let w' := exec (submit_resume (Resolved {| ok := k; payload := Json b |})) w in
  ¬ message_hidden w'
  ∧ message_hidden (advance t w')
  ∧ messageDiv_textContent (advance t w')
    = (if k then text_of (message b) else or_else (detail b) "An error occurred").
Proof.
  intros Hin Hd w'.
  destruct (submit_schedules_hide w k b) as [Hshown Htimers]. fold w' in Hshown, Htimers.
  split; [exact Hshown|]. split.
  - apply (advance_hides w' d t); [|exact Hd]. rewrite Htimers.
    apply elem_of_app. now left.
  - destruct (advance_frame t w') as [_ [_ _ -> _ _ _]]. unfold w'. now destruct k.
Qed.

Lemma pending_timer_hides_newer_message_witness :
  let first := signup_settled (ok_json {| message := Some "Signed up"; detail := None |}) in
  let w := run [first; clock 3000] chess_page in
  let second := Resolved {| ok := false;
                            payload := Json {| message := None;
                                               detail := Some "Already signed up" |} |} in
  (5000, hide_message) ∈ timers w
  ∧ now w = 3000
  ∧ message_hidden (advance 5000 (exec (submit_resume second) w))
  ∧ messageDiv_textContent (advance 5000 (exec (submit_resume second) w))
    = "Already signed up".
Proof.
  intros first w second.
  assert ((5000, hide_message) ∈ timers w) as Hin by apply list_elem_of_here.
  split; [exact Hin|]. split; [reflexivity|].
  destruct (pending_timer_hides_newer_message w false
              {| message := None; detail := Some "Already signed up" |} 5000 5000 Hin)
    as (_ & Hhidden & Htext); [lia|].
  split; [exact Hhidden|exact Htext].
Defined.

End timers.

(* ===================================================================== *)
(** * What a load leaves behind, whether it succeeds or not *)
(* ===================================================================== *)

Section load_store.

Lemma forEach_render_throws_store good bad rest : ∀ w,
  Forall has_roster good → participants bad.2 = None →
  ∃ w', forEach (good ++ bad :: rest) render_activity w = (Thrown, w')
    ∧ elements w' = elements w ++ (entry_card <$> good) ++ [None]
    ∧ activitiesList w' = activitiesList w ++ (Card <$> seq (length (elements w)) (length good))
    ∧ activitySelect w' = activitySelect w ++ (option_for <$> good)
    ∧ clickListeners w' = clickListeners w ++ listeners_from (length (elements w)) good
    ∧ same_outside_roster w w'.
Proof.
  intros w Hgood Hbad.
  destruct (forEach_render_ok good w Hgood) as (w1 & Hrun & He & Hl & Hs & Hc & Hf).
  exists (set_elements (λ l, l ++ [None]) w1). split.
  - clear He Hl Hs Hc Hf. revert w w1 Hrun.
    induction good as [|e good IH]; intros w w1 Hrun.
    + simpl in Hrun. injection Hrun as <-. simpl. unfold mbind, js_bind.
      now rewrite render_activity_throws.
    + inversion Hgood as [|? ? [roster Hr] Hrest]; subst.
      simpl in *. unfold mbind, js_bind in *.
      destruct (render_activity e w) as [[[]|] w0]; [|discriminate].
      now apply IH.
  - simpl. rewrite He, <- app_assoc. repeat split; try assumption.
    all: apply Hf.
Qed.

(** The store after a load, in every case: the cards of the entries that
    were rendered, then at most one [div] without content; the listeners of
    those cards; their options; one console line at most. *)
Lemma fetchActivities_store (r : fetch_result (list (string * details))) (w : world) :
  let w' := exec (fetchActivities r) w in
  ∃ good tail,
    Forall has_roster good
    ∧ (tail = [] ∨ tail = [None])
    ∧ elements w' = elements w ++ (entry_card <$> good) ++ tail
    ∧ clickListeners w' = clickListeners w ++ listeners_from (length (elements w)) good
    ∧ activitySelect w' = activitySelect w ++ (option_for <$> good)
    ∧ (console w' = console w ∨ console w' = console w ++ ["Error fetching activities:"])
    ∧ email_value w' = email_value w ∧ activity_value w' = activity_value w
    ∧ messageDiv_textContent w' = messageDiv_textContent w
    ∧ messageDiv_classList w' = messageDiv_classList w
    ∧ alerts w' = alerts w ∧ requests w' = requests w
    ∧ timers w' = timers w ∧ now w' = now w.
Proof.
  intros w'.
  destruct r as [|[b p]].
  - exists [], []. unfold w'. simpl. rewrite !app_nil_r.
    repeat split; try (now left); now right.
  - destruct p as [| |entries].
    + exists [], []. unfold w'. simpl. rewrite !app_nil_r.
      repeat split; try (now left); now right.
    + exists [], []. unfold w'. simpl. rewrite !app_nil_r.
      repeat split; try (now left); now right.
    + destruct (first_without_roster entries) as [Hall|(good & bad & rest & -> & Hg & Hb)].
      * destruct (load_ok {| ok := b; payload := Json entries |} entries w eq_refl Hall)
          as (w2 & Hrun & He & _ & Hs & Hc & Hf).
        assert (w' = w2) as -> by (unfold w', exec; now rewrite Hrun).
        exists entries, []. rewrite app_nil_r. destruct Hf.
        repeat split; try assumption; now left.
      * destruct (forEach_render_throws_store good bad rest
                    (set_activitiesList (λ _, []) w) Hg Hb)
          as (w1 & Hthrow & He & _ & Hs & Hc & Hf).
        assert (w' = exec fetchActivities_catch w1) as ->.
        { unfold w', exec, fetchActivities, try_catch, fetchActivities_try. js_simpl.
          now rewrite Hthrow. }
        exists good, [None]. destruct Hf. simpl in *.
        repeat split; try assumption; try (now right). right. now rewrite same_console0.
Qed.

(** X5.  The failure notice is what the list holds after a load exactly when
    the request was rejected, the body was not a JSON mapping, or an entry of
    the mapping had no participants; the status of the response plays no
    part in it. *)
Theorem notice_exactly_when_load_throws (r : fetch_result (list (string * details)))
    (w : world) :
  activitiesList (exec (fetchActivities r) w) = [Paragraph failure_notice]
  ↔ ¬ ∃ res entries, r = Resolved res ∧ payload res = Json entries
                      ∧ Forall has_roster entries.
Proof.
  split.
  - intros Hnotice (res & entries & -> & Hp & Hall).
    destruct (load_ok res entries w Hp Hall) as (w2 & Hrun & _ & Hl & _).
    unfold exec in Hnotice. rewrite Hrun in Hnotice. simpl in Hnotice.
    rewrite Hl in Hnotice. destruct entries; discriminate.
  - intros Hno. apply failed_load_shows_notice. now rewrite loads_iff.
Qed.

(** X6.  A load that throws leaves the notice as the only thing the list
    shows and writes one line to the console; nothing is rolled back: the
    options of the entries rendered before the throw stay in the select.  The
    form, the message area, the alerts, the timers and the requests are
    untouched. *)
Theorem failed_load_leaves_page (r : fetch_result (list (string * details))) (w : world) :
  ¬ loads r w →
  let w' := exec (fetchActivities r) w in
  rendered w' = [Some (shown_paragraph failure_notice)]
  ∧ console w' = console w ++ ["Error fetching activities:"]
  ∧ (∃ good, Forall has_roster good
       ∧ activitySelect w' = activitySelect w ++ (option_for <$> good)
       ∧ ∀ res entries, r = Resolved res → payload res = Json entries →
           ∃ bad rest, entries = good ++ bad :: rest ∧ participants bad.2 = None)
  ∧ email_value w' = email_value w ∧ activity_value w' = activity_value w
  ∧ messageDiv_textContent w' = messageDiv_textContent w
  ∧ messageDiv_classList w' = messageDiv_classList w
  ∧ alerts w' = alerts w ∧ requests w' = requests w ∧ timers w' = timers w.
Proof.
  intros Hno w'.
  assert (rendered w' = [Some (shown_paragraph failure_notice)]) as Hnotice.
  { unfold rendered, w'. now rewrite (failed_load_shows_notice r w Hno). }
  split; [exact Hnotice|]. clear Hnotice.
  destruct r as [|[b [| |entries]]].
  - split; [reflexivity|]. split; [|now repeat split].
    exists []. split; [constructor|]. split; [symmetry; apply app_nil_r|]. discriminate.
  - split; [reflexivity|]. split; [|now repeat split].
    exists []. split; [constructor|]. split; [symmetry; apply app_nil_r|].
    intros res entries [= <-]. discriminate.
  - split; [reflexivity|]. split; [|now repeat split].
    exists []. split; [constructor|]. split; [symmetry; apply app_nil_r|].
    intros res entries [= <-]. discriminate.
  - destruct (first_without_roster entries) as [Hall|(good & bad & rest & -> & Hg & Hb)].
    { exfalso. apply Hno, loads_iff. eauto. }
    destruct (forEach_render_throws_store good bad rest
                (set_activitiesList (λ _, []) w) Hg Hb)
      as (w1 & Hthrow & _ & _ & Hs & _ & Hf).
    assert (w' = exec fetchActivities_catch w1) as ->.
    { unfold w', exec, fetchActivities, try_catch, fetchActivities_try. js_simpl.
      now rewrite Hthrow. }
    destruct Hf. simpl in *. split; [now f_equal|]. split; [|now repeat split].
    exists good. split; [exact Hg|]. split; [exact Hs|].
    intros res entries [= <-] [= <-]. now exists bad, rest.
Qed.

Lemma failed_load_leaves_page_witness :
  let art := ("Art Club", {| description := "Painting"; schedule := "Mon 4pm";
                              max_participants := 5; participants := None |}) in
  let r := ok_json [chess_club; art; chess_club] in
  ¬ loads r initial_page
  ∧ rendered (exec (fetchActivities r) initial_page)
    = [Some (shown_paragraph failure_notice)]
  ∧ activitySelect (exec (fetchActivities r) initial_page)
    = activitySelect initial_page ++ [chess_option].
Proof.
  intros art r.
  assert (¬ loads r initial_page) as Hno.
  { rewrite loads_iff. intros (res & entries & [= <-] & [= <-] & Hall).
    inversion Hall as [|? ? _ Hrest]; subst. inversion Hrest as [|? ? [? Hart] _]; subst.
    discriminate. }
  split; [exact Hno|].
  destruct (failed_load_leaves_page r initial_page Hno) as (Hnotice & _).
  split; [exact Hnotice|reflexivity].
Defined.

End load_store.

(* ===================================================================== *)
(** * Removals on any heading the script has written *)
(* ===================================================================== *)

Section removal_edges.

(** The digits matched in a heading are those of the absolute value of the
    count it was written for: the sign of a negative count is not matched. *)
Lemma heading_reads_back (z : Z) :
  ∃ digits, match_digits (heading z) = Some digits ∧ parseInt digits = Some (Z.abs z).
Proof.
  destruct z as [|p|p].
  - exists (Number_toString (Z.of_nat 0)).
    split; [apply (heading_match 0)|apply (parseInt_count 0)].
  - exists (Number_toString (Z.pos p)). split.
    + pose proof (heading_match (Pos.to_nat p)) as H. now rewrite positive_nat_Z in H.
    + change (Z.abs (Z.pos p)) with (Z.pos p).
      rewrite <- (positive_nat_Z p). apply parseInt_count.
  - exists (Number_toString (Z.pos p)). split.
    + pose proof (heading_match (Pos.to_nat p)) as H. rewrite positive_nat_Z in H.
      unfold heading in *.
      change (Number_toString (Z.neg p)) with (String "-" (Number_toString (Z.pos p))).
      rewrite !append_cons in *. exact H.
    + change (Z.abs (Z.neg p)) with (Z.pos p).
      rewrite <- (positive_nat_Z p). apply parseInt_count.
Qed.

Lemma delete_try_any_heading (w : world) (l : listener) (res : response result)
    (c : activity_card) (z : Z) :
  ok res = true →
  elements w !! l_card l = Some (Some c) →
  h5 c = heading z →
  delete_try l (Resolved res) w =
  (Normal (), set_elements (alter (fmap (set_h5 (heading (Z.abs z - 1)))) (l_card l))
                (set_elements (alter (fmap (remove_row (l_row l))) (l_card l)) w)).
Proof.
  intros Hok Hc Hh. destruct (heading_reads_back z) as (digits & Hm & Hp).
  unfold delete_try, h5_textContent. js_simpl. rewrite Hok. js_simpl.
  rewrite list_lookup_alter_eq, Hc. simpl. rewrite Hh, Hm. simpl. now rewrite Hp.
Qed.

(** X7.  The count is read from the heading without its sign.  After a
    successful removal on a card whose heading was written for the integer
    z, the heading is the one for |z| - 1: one less for a count that is not
    negative, and -z - 1 for a negative one (from -1 the heading goes back to
    0).  No alert is shown. *)
Theorem delete_success_drops_sign (w : world) (l : listener) (res : response result)
    (c : activity_card) (z : Z) :
  ok res = true →
  elements w !! l_card l = Some (Some c) →
  h5 c = heading z →
  let w' := exec (delete_resume l (Resolved res)) w in
  (h5 <$> mjoin (elements w' !! l_card l)) = Some (heading (Z.abs z - 1))
  ∧ alerts w' = alerts w ∧ console w' = console w.
Proof.
  intros Hok Hc Hh w'. unfold w', exec, delete_resume, try_catch.
  rewrite (delete_try_any_heading w l res c z Hok Hc Hh). simpl.
  rewrite !list_lookup_alter_eq, Hc. now repeat split.
Qed.

Lemma delete_success_drops_sign_witness :
  let ok_response := {| ok := true; payload := @NotJson result |} in
  let settle := unregister_settled chess_listener (Resolved ok_response) in
  let w := run [settle; settle] chess_page in
  ok ok_response = true
  ∧ (h5 <$> mjoin (elements w !! l_card chess_listener)) = Some (heading (-1))
  ∧ (h5 <$> mjoin (elements (exec (delete_resume chess_listener (Resolved ok_response)) w)
                   !! l_card chess_listener))
    = Some "Current Participants (0)".
Proof.
  intros ok_response settle w. split; [reflexivity|]. split; [reflexivity|].
  destruct (elements w !! l_card chess_listener) as [[c|]|] eqn:Hc; try discriminate.
  apply (delete_success_drops_sign w chess_listener ok_response c (-1)).
  - reflexivity.
  - exact Hc.
  - vm_compute in Hc. injection Hc as <-. reflexivity.
Defined.

Lemma delete_success_keeps_count_witness :
  elements chess_page !! l_card chess_listener = Some (Some chess_card)
  ∧ h5 chess_card = heading (Z.of_nat (length (ul chess_card)))
  ∧ ∃ c', elements (exec (delete_resume chess_listener
                            (Resolved {| ok := true; payload := NotJson |})) chess_page)
          !! l_card chess_listener = Some (Some c')
        ∧ h5 c' = heading (Z.of_nat (length (ul c'))).
Proof.
  do 2 (split; [reflexivity|]).
  destruct (delete_success_keeps_count chess_page chess_listener
              {| ok := true; payload := NotJson |} chess_card)
    as (c' & Hc' & Hh & _); try reflexivity.
  - repeat constructor. intros H. inversion H.
  - apply list_elem_of_here.
  - exists c'. split; [exact Hc'|exact Hh].
Defined.

(** The page after a removal has settled, whatever the outcome: the cards may
    have changed, at most one alert and one console line were added. *)
Lemma delete_resume_shape (l : listener) (r : fetch_result result) (w : world) :
  ∃ els al co,
    exec (delete_resume l r) w
    = set_console (λ c, c ++ co) (set_alerts (λ a, a ++ al) (set_elements (λ _, els) w)).
Proof.
  destruct w as [els ? ? ? ? ? ? ? al0 co0 ? ? ?].
  destruct r as [|[[] p]].
  - eexists _, _, _. reflexivity.
  - unfold exec, delete_resume, try_catch, delete_try, h5_textContent. js_simpl.
    destruct (alter _ _ _ !! l_card l) as [[c|]|]; js_simpl;
      try (eexists _, _, _; reflexivity).
    destruct (match_digits (h5 c)); js_simpl.
    + eexists _, [], []. unfold set_console, set_alerts, set_elements. simpl.
      rewrite (app_nil_r al0), (app_nil_r co0). reflexivity.
    + eexists _, _, _; reflexivity.
  - destruct p as [| |b].
    + eexists _, _, _. reflexivity.
    + eexists _, _, _. reflexivity.
    + eexists els, _, []. unfold exec, delete_resume, try_catch, delete_try, alert. js_simpl.
      unfold set_console, set_alerts, set_elements. simpl.
      rewrite (app_nil_r co0). reflexivity.
Qed.

End removal_edges.

(* ===================================================================== *)
(** * What each event does to the page *)
(* ===================================================================== *)

Section events.

Lemma same_roster_rendered (w w' : world) : same_roster w w' → rendered w' = rendered w.
Proof.
  intros [He Hl _ _]. unfold rendered. rewrite Hl. apply list_fmap_ext.
  intros i [div|text] _; [|reflexivity]. simpl. now rewrite He.
Qed.

(** X8.  No request is ever sent again.  The page load sends the one GET.
    A submit sends the one POST built from the two fields of the form as
    they are at that moment, and a click the one DELETE for the activity and
    the e-mail of its button, unless one of the two values holds a lone
    surrogate: then building the URL throws and nothing is sent.  The
    settlement of a request, failed or not, the clock and the typing send
    nothing. *)
Theorem requests_sent_once (e : event) (w : world) :
  requests (step e w) = requests w ++ sent e w.
Proof.
  destruct e as [|r|email activity| |r|l|l r|t]; simpl; try reflexivity.
  - rewrite app_nil_r.
    now destruct (fetchActivities_store r w)
      as (good & tail & _ & _ & _ & _ & _ & _ & _ & _ & _ & _ & _ & -> & _).
  - now rewrite app_nil_r.
  - rewrite submit_listener_run.
    destruct (lone_surrogate (activity_value w) || lone_surrogate (email_value w));
      [now rewrite app_nil_r|reflexivity].
  - rewrite app_nil_r. now destruct r as [|[[] [| |b]]].
  - rewrite click_listener_run.
    destruct (lone_surrogate (l_activity l) || lone_surrogate (l_email l));
      [now rewrite app_nil_r|reflexivity].
  - rewrite app_nil_r.
    destruct (delete_resume_shape l r w) as (els & al & co & ->). reflexivity.
  - rewrite app_nil_r. now destruct (advance_frame t w) as [_ [_ _ _ _ _ ->]].
Qed.

Lemma rosters_frame (e : event) (w : world) :
  ¬ alters_rosters e → same_roster w (step e w).
Proof.
  intros He.
  destruct e as [|r|email activity| |r|l|l r|t]; simpl in *; try (now split).
  - rewrite submit_listener_run.
    now destruct (lone_surrogate (activity_value w) || lone_surrogate (email_value w)).
  - now destruct r as [|[[] [| |b]]].
  - rewrite click_listener_run.
    now destruct (lone_surrogate (l_activity l) || lone_surrogate (l_email l)).
  - destruct (delete_failure_run w l r) as [log ->]; [|now split].
    destruct r as [|res]; [now left|right]. exists res. split; [reflexivity|].
    now destruct (ok res).
  - apply advance_frame.
Qed.

(** X9.  The cards, the children of the list, the options and the listeners
    change on two events only: the settlement of the load and the settlement
    of a removal with a success status.  A submit, the settlement of a
    signup, a click, a removal that failed, the clock and the typing leave
    all of them, and so what the list shows, as they are. *)
Theorem rosters_change_on_load_and_removal_only (e : event) (w : world) :
  ¬ alters_rosters e →
  same_roster w (step e w) ∧ rendered (step e w) = rendered w.
Proof.
  intros He. pose proof (rosters_frame e w He) as Hsame.
  split; [exact Hsame|now apply same_roster_rendered].
Qed.

Lemma rosters_change_on_load_and_removal_only_witness :
  let refused := unregister_settled chess_listener
                   (Resolved {| ok := false; payload := @JsonNull result |}) in
  ¬ alters_rosters refused
  ∧ rendered (step refused chess_page) = [Some (shown_card chess_card)].
Proof.
  intros refused.
  assert (¬ alters_rosters refused) as Hno by (simpl; discriminate).
  split; [exact Hno|].
  destruct (rosters_change_on_load_and_removal_only refused chess_page Hno) as [_ ->].
  reflexivity.
Defined.

End events.

(* ===================================================================== *)
(** * Invariants of the page over its runs *)
(* ===================================================================== *)

Section invariants.

Lemma run_invariant (P : world → Prop) :
  (∀ e w, P w → P (step e w)) → ∀ es w, P w → P (run es w).
Proof.
  intros Hstep es. induction es as [|e es IH]; intros w Hw; [exact Hw|].
  apply (IH (step e w)). now apply Hstep.
Qed.

(** The listeners of the cards rendered from [entries], the first of them
    being the [div]-th element: one per entry and member of its roster. *)
Lemma listeners_from_elem (entries : list (string * details)) : ∀ div l,
  l ∈ listeners_from div entries →
  ∃ i e roster j p,
    entries !! i = Some e ∧ participants e.2 = Some roster ∧ roster !! j = Some p
    ∧ l = {| l_card := div + i; l_row := j; l_activity := e.1; l_email := p |}.
Proof.
  induction entries as [|e entries IH]; intros div l Hl; [inversion Hl|].
  simpl in Hl. apply elem_of_app in Hl as [Hl|Hl].
  - unfold entry_listeners, entry_card in Hl.
    destruct (participants e.2) as [roster|] eqn:Hr; [|inversion Hl].
    simpl in Hl. apply list_elem_of_fmap in Hl as (r & -> & Hrow).
    apply list_elem_of_lookup in Hrow as [j Hj].
    rewrite list_lookup_imap in Hj. destruct (roster !! j) as [p|] eqn:Hp; [|discriminate].
    injection Hj as <-. exists 0%nat, e, roster, j, p.
    rewrite Nat.add_0_r. now repeat split.
  - destruct (IH (S div) l Hl) as (i & e' & roster & j & p & Hi & Hr & Hp & ->).
    exists (S i), e', roster, j, p. repeat split; try assumption.
    f_equal. lia.
Qed.

(** A card over the settlement of a removal: it keeps its name, loses rows at
    most, and still carries a heading written by the script. *)
Lemma delete_resume_card (l : listener) (r : fetch_result result) (w : world)
    (div : nat) (c : activity_card) :
  well_headed w →
  elements w !! div = Some (Some c) →
  ∃ c', elements (exec (delete_resume l r) w) !! div = Some (Some c')
      ∧ h4 c' = h4 c ∧ (∀ x, x ∈ ul c' → x ∈ ul c) ∧ ∃ z, h5 c' = heading z.
Proof.
  intros Hheaded Hc.
  assert (∃ z, h5 c = heading z) as Hz by (now apply (Hheaded div)).
  assert (r = Rejected ∨ (∃ res, r = Resolved res ∧ ok res = false)
          ∨ ∃ res, r = Resolved res ∧ ok res = true) as [Hr|[Hr|(res & -> & Hok)]].
  { destruct r as [|res]; [now left|]. destruct (ok res) eqn:Hok; eauto. }
  1,2: destruct (delete_failure_run w l r) as [log ->]; [tauto|]; now exists c.
  destruct (elements w !! l_card l) as [[c0|]|] eqn:Hc0.
  - destruct (Hheaded _ _ Hc0) as [z0 Hz0].
    unfold exec, delete_resume, try_catch.
    rewrite (delete_try_any_heading w l res c0 z0 Hok Hc0 Hz0). simpl.
    destruct (decide (l_card l = div)) as [<-|Hne].
    + rewrite !list_lookup_alter_eq, Hc0. simpl. eexists. split; [reflexivity|].
      assert (c0 = c) as -> by congruence. simpl.
      split; [reflexivity|]. split; [|eauto].
      intros x Hx. now apply list_elem_of_filter in Hx as [_ Hx].
    + rewrite !list_lookup_alter_ne by assumption. now exists c.
  - unfold exec, delete_resume, try_catch, delete_try, h5_textContent. js_simpl.
    rewrite Hok. js_simpl. rewrite list_lookup_alter_eq, Hc0. js_simpl.
    rewrite list_lookup_alter_ne by congruence. now exists c.
  - unfold exec, delete_resume, try_catch, delete_try, h5_textContent. js_simpl.
    rewrite Hok. js_simpl. rewrite list_lookup_alter_eq, Hc0. js_simpl.
    rewrite list_lookup_alter_ne by congruence. now exists c.
Qed.

Lemma well_headed_step (e : event) (w : world) :
  well_headed w → well_headed (step e w).
Proof.
  intros Hw.
  assert (same_roster w (step e w) → well_headed (step e w)) as Hsame.
  { intros [He _ _ _] div c Hc. rewrite He in Hc. now apply (Hw div). }
  destruct e as [|r|email activity| |r|l|l r|t];
    try (apply Hsame, rosters_frame; simpl; tauto).
  - simpl. destruct (fetchActivities_store r w)
      as (good & tail & Hg & Htail & He & _).
    intros div c Hc. rewrite He in Hc.
    apply lookup_app_Some in Hc as [Hc|[_ Hc]]; [now apply (Hw div)|].
    apply lookup_app_Some in Hc as [Hc|[_ Hc]].
    + apply list_lookup_fmap_Some in Hc as ([name d] & Hcard & _).
      unfold entry_card in Hcard. simpl in Hcard.
      destruct (participants d) as [roster|]; [|discriminate].
      injection Hcard as ->. now exists (Z.of_nat (length roster)).
    + destruct Htail as [->| ->]; [now rewrite lookup_nil in Hc|].
      apply list_lookup_singleton_Some in Hc as [_ Hc]. discriminate.
  - simpl. intros div c' Hc'.
    destruct (delete_resume_rows l r w div c' Hc') as (c & Hc & _).
    destruct (delete_resume_card l r w div c Hw Hc) as (c'' & Hc'' & _ & _ & Hz).
    now assert (c'' = c') as -> by congruence.
Qed.

Lemma listeners_match_step (e : event) (w : world) :
  well_headed w → listeners_match w → listeners_match (step e w).
Proof.
  intros Hw Hm.
  assert (same_roster w (step e w) → listeners_match (step e w)) as Hsame.
  { intros [He _ _ Hl] l Hin. rewrite Hl in Hin. destruct (Hm l Hin) as (c & Hc & Hrest).
    exists c. now rewrite He. }
  destruct e as [|r|email activity| |r|l|l r|t];
    try (apply Hsame, rosters_frame; simpl; tauto).
  - simpl. destruct (fetchActivities_store r w)
      as (good & tail & Hg & Htail & He & Hl & _).
    intros l Hin. rewrite Hl in Hin. apply elem_of_app in Hin as [Hin|Hin].
    + destruct (Hm l Hin) as (c & Hc & Hrest). exists c. split; [|exact Hrest].
      rewrite He. now apply lookup_app_l_Some.
    + apply listeners_from_elem in Hin
        as (i & [name d] & roster & j & p & Hi & Hr & Hp & ->). simpl in *.
      exists (card_template name d roster). split; [|split; [reflexivity|]].
      * rewrite He. simpl l_card. rewrite lookup_app_r by lia.
        replace (length (elements w) + i - length (elements w))%nat with i by lia.
        apply lookup_app_l_Some. rewrite list_lookup_fmap, Hi. unfold entry_card.
        simpl. now rewrite Hr.
      * intros x Hx Hindex. simpl in Hx. apply list_elem_of_lookup in Hx as [j' Hj'].
        rewrite list_lookup_imap in Hj'.
        destruct (roster !! j') as [p'|] eqn:Hp'; [|discriminate].
        injection Hj' as <-. simpl in *. subst j'.
        assert (p' = p) as -> by congruence. now repeat split.
  - simpl. destruct (delete_resume_shape l r w) as (els & al & co & Hshape).
    intros l' Hin. rewrite Hshape in Hin. simpl in Hin.
    destruct (Hm l' Hin) as (c & Hc & Hname & Hrows).
    destruct (delete_resume_card l r w (l_card l') c Hw Hc) as (c' & Hc' & Hh4 & Hsub & _).
    exists c'. split; [exact Hc'|]. split; [congruence|].
    intros x Hx Hindex. apply Hrows; [now apply Hsub|exact Hindex].
Qed.

Lemma fresh_page_invariants (es : list event) (w0 : world) :
  elements w0 = [] → clickListeners w0 = [] →
  well_headed (run es w0) ∧ listeners_match (run es w0).
Proof.
  intros He Hl.
  apply (run_invariant (λ w, well_headed w ∧ listeners_match w)).
  - intros e w [Hw Hm]. split; [now apply well_headed_step|now apply listeners_match_step].
  - split.
    + intros div c Hc. rewrite He in Hc. now rewrite lookup_nil in Hc.
    + intros l Hin. rewrite Hl in Hin. inversion Hin.
Qed.

End invariants.

Section invariant_results.

(** X10.  On a page the script started on with nothing rendered, over any
    run whose loads render entries free of markup, a success response to the
    removal asked by a registered button never ends in the catch block: no
    alert is shown, nothing is logged, the card of the button is still there
    with a heading written for some integer, and the row of the button is
    not in it. *)
Theorem registered_removal_never_alerts (es : list event) (w0 : world) (l : listener)
    (res : response result) :
  elements w0 = [] → clickListeners w0 = [] →
  Forall faithful_event es →
  l ∈ clickListeners (run es w0) → ok res = true →
  let w := run es w0 in
  let w' := exec (delete_resume l (Resolved res)) w in
  alerts w' = alerts w ∧ console w' = console w
  ∧ ∃ c z, elements w' !! l_card l = Some (Some c) ∧ h5 c = heading z
         ∧ ∀ r, r ∈ ul c → li_index r ≠ l_row l.
Proof.
  intros He Hl _ Hin Hok w w'.
  destruct (fresh_page_invariants es w0 He Hl) as [Hw Hm]. fold w in Hw, Hm, Hin.
  destruct (Hm l Hin) as (c & Hc & _). destruct (Hw _ _ Hc) as [z Hz].
  unfold w', exec, delete_resume, try_catch.
  rewrite (delete_try_any_heading w l res c z Hok Hc Hz). simpl.
  do 2 (split; [reflexivity|]).
  exists (set_h5 (heading (Z.abs z - 1)) (remove_row (l_row l) c)), (Z.abs z - 1).
  rewrite !list_lookup_alter_eq, Hc. simpl. do 2 (split; [reflexivity|]).
  intros r Hr. now apply list_elem_of_filter in Hr as [Hr _].
Qed.

Lemma chess_run_faithful (tail : list event) :
  Forall faithful_event tail →
  Forall faithful_event
    (DOMContentLoaded :: activities_settled (ok_json [chess_club]) :: tail).
Proof.
  intros Htail. constructor; [exact I|]. constructor; [|exact Htail].
  simpl. constructor; [apply chess_club_faithful|constructor].
Qed.

Lemma registered_removal_never_alerts_witness :
  let es := [DOMContentLoaded; activities_settled (ok_json [chess_club]);
             click chess_listener] in
  let res := {| ok := true; payload := @NotJson result |} in
  elements initial_page = [] ∧ clickListeners initial_page = []
  ∧ Forall faithful_event es
  ∧ chess_listener ∈ clickListeners (run es initial_page)
  ∧ ok res = true
  ∧ alerts (exec (delete_resume chess_listener (Resolved res)) (run es initial_page)) = [].
Proof.
  intros es res.
  assert (chess_listener ∈ clickListeners (run es initial_page)) as Hin
    by apply list_elem_of_here.
  assert (Forall faithful_event es) as Hes
    by (apply chess_run_faithful; repeat constructor).
  do 2 (split; [reflexivity|]). split; [exact Hes|].
  split; [exact Hin|]. split; [reflexivity|].
  destruct (registered_removal_never_alerts es initial_page chess_listener res
              eq_refl eq_refl Hes Hin eq_refl) as (Ha & _).
  exact Ha.
Defined.

(** X11.  On a page the script started on with nothing rendered, over any
    run whose loads render entries free of markup, every registered button
    asks for its own row: its card is there; a click, unless the activity or
    the e-mail holds a lone surrogate (then nothing is sent), sends the one
    DELETE that names the activity the card is titled with and the e-mail of
    the button; and the row of the button, as long as it is in the card,
    displays that e-mail and carries the two as its [data-] attributes. *)
Theorem button_requests_its_own_row (es : list event) (w0 : world) (l : listener) :
  elements w0 = [] → clickListeners w0 = [] →
  Forall faithful_event es →
  l ∈ clickListeners (run es w0) →
  let w := run es w0 in
  ∃ c, elements w !! l_card l = Some (Some c)
     ∧ requests (step (click l) w)
       = requests w ++ (if lone_surrogate (h4 c) || lone_surrogate (l_email l) then []
                        else [DELETE_unregister (h4 c) (l_email l)])
     ∧ ∀ r, r ∈ ul c → li_index r = l_row l →
         span r = l_email l ∧ data_activity r = h4 c ∧ data_email r = l_email l.
Proof.
  intros He Hl _ Hin w.
  destruct (fresh_page_invariants es w0 He Hl) as [_ Hm]. fold w in Hm, Hin.
  destruct (Hm l Hin) as (c & Hc & Hname & Hrows).
  exists c. rewrite Hname. split; [exact Hc|]. split; [|exact Hrows].
  simpl. rewrite click_listener_run.
  destruct (lone_surrogate (l_activity l) || lone_surrogate (l_email l));
    [now rewrite app_nil_r|reflexivity].
Qed.

Lemma button_requests_its_own_row_witness :
  let es := [DOMContentLoaded; activities_settled (ok_json [chess_club])] in
  elements initial_page = [] ∧ clickListeners initial_page = []
  ∧ Forall faithful_event es
  ∧ chess_listener ∈ clickListeners (run es initial_page)
  ∧ ∃ c, elements (run es initial_page) !! l_card chess_listener = Some (Some c)
       ∧ h4 c = "Chess Club"
       ∧ requests (step (click chess_listener) (run es initial_page))
         = requests (run es initial_page) ++ [DELETE_unregister "Chess Club" "a@x.com"].
Proof.
  intros es.
  assert (chess_listener ∈ clickListeners (run es initial_page)) as Hin
    by apply list_elem_of_here.
  assert (Forall faithful_event es) as Hes
    by (apply chess_run_faithful; repeat constructor).
  do 2 (split; [reflexivity|]). split; [exact Hes|]. split; [exact Hin|].
  destruct (button_requests_its_own_row es initial_page chess_listener
              eq_refl eq_refl Hes Hin) as (c & Hc & Hreq & _).
  exists c. split; [exact Hc|]. vm_compute in Hc. injection Hc as <-.
  split; [reflexivity|exact Hreq].
Defined.

Lemma rows_only_shrink_witness :
  let es := [input "b@x.com" "Chess Club"; submit;
             signup_settled (ok_json {| message := Some "Signed up"; detail := None |});
             clock 6000] in
  Forall (λ e, ¬ settles_load e) es
  ∧ elements (run es chess_page) !! 0%nat = Some (Some chess_card)
  ∧ ∃ c, elements chess_page !! 0%nat = Some (Some c) ∧ ul chess_card `sublist_of` ul c.
Proof.
  intros es.
  assert (Forall (λ e, ¬ settles_load e) es) as Hes
    by (repeat constructor; simpl; tauto).
  split; [exact Hes|]. split; [reflexivity|].
  destruct (rows_only_shrink es chess_page 0 chess_card Hes eq_refl) as [_ Hrows].
  exact Hrows.
Defined.

(** X14.  Alerts come from the delete button only.  The settlement of a
    removal aside, the one event that opens an alert is a click whose
    activity or e-mail holds a lone surrogate: building the URL throws and
    the catch block alerts "Failed to unregister participant" at once.  The
    load, the signup, every other click, the clock and the typing never
    alert, whatever their outcome. *)
Theorem alerts_on_removal_only (e : event) (w : world) :
  (∀ l r, e ≠ unregister_settled l r) →
  alerts (step e w) = alerts w ++ alerted e.
Proof.
  intros He.
  destruct e as [|r|email activity| |r|l|l r|t]; simpl; rewrite ?app_nil_r;
    try reflexivity.
  - now destruct (fetchActivities_store r w)
      as (good & tail & _ & _ & _ & _ & _ & _ & _ & _ & _ & _ & -> & _).
  - rewrite submit_listener_run.
    now destruct (lone_surrogate (activity_value w) || lone_surrogate (email_value w)).
  - now destruct r as [|[[] [| |b]]].
  - rewrite click_listener_run.
    destruct (lone_surrogate (l_activity l) || lone_surrogate (l_email l));
      [reflexivity|now rewrite app_nil_r].
  - now destruct (He l r).
  - now destruct (advance_frame t w) as [_ [_ _ _ -> _ _]].
Qed.

Lemma alerts_on_removal_only_witness :
  let stray := {| l_card := 0; l_row := 0;
                  l_activity := String "237" (String "160" (String "128" ""));
                  l_email := "a@x.com" |} in
  (∀ l r, click stray ≠ unregister_settled l r)
  ∧ lone_surrogate (l_activity stray) = true
  ∧ alerts (step (click stray) chess_page) = ["Failed to unregister participant"]
  ∧ requests (step (click stray) chess_page) = requests chess_page.
Proof.
  intros stray.
  assert (∀ l r, click stray ≠ unregister_settled l r) as Hne by discriminate.
  split; [exact Hne|]. split; [reflexivity|].
  split; [|reflexivity].
  now rewrite (alerts_on_removal_only (click stray) chess_page Hne).
Defined.

End invariant_results.
